(** * The SOLID examples, embedded in Rocq

    The source is one JavaScript file of ten independent snippets: each
    of the five SOLID principles is shown once applied and once violated.
    Several snippets declare the same class name (two [BankAccount]s, three
    [Car]s, three [Sparrow]s), so every snippet lives in a module of its
    own here, with the class table of that snippet only.

    The development has three parts.  The first part is the embedding: a
    small model of the JavaScript features the snippets use (objects on a
    heap, classes with [extends], [new], dynamic method calls, [throw],
    [console.log], Number arithmetic on binary64 floats) and, on top of
    it, the classes of the source, method body by method body.  The second
    part states and proves the properties the specification gives for
    those classes; the third part proves further properties that the
    code shows. *)

From Stdlib Require Import ZArith String List Floats.
From stdpp Require Import gmap strings.
Import ListNotations.

Local Open Scope string_scope.

(* ================================================================== *)
(** * Part 1a: the JavaScript model                                     *)
(* ================================================================== *)

Module JS.

(** Object identity: a reference into the heap. *)
Definition loc := positive.

(** The language values the snippets can see.  Function values, symbols
    and bigints do not occur in the source and are left out. *)
Inductive value : Type :=
| VUndefined
| VNull
| VBool (b : bool)
| VNum (n : float)
| VStr (s : string)
| VObj (l : loc).

(** An object: the class it was created from (its prototype) and its own
    data properties. *)
Record object := Object {
  class_of : string;
  fields : gmap string value
}.

(** The state a snippet can touch: the heap and what was written to the
    console so far (oldest line first). *)
Record state := State {
  heap : gmap loc object;
  console : list string
}.

(** What a [throw] carries.  [Error] is [new Error(message)], the only
    error the source creates; [TypeError] and [ReferenceError] are raised
    by the language itself (their message texts are engine-specific and
    are not modelled). *)
Inductive exn : Type :=
| Error (message : string)
| TypeError
| ReferenceError.

(** The completion of a computation.  [OutOfFuel] is not a JavaScript
    completion: it says that the call depth given to [invoke] below was
    too small to finish the call. *)
Inductive outcome (A : Type) : Type :=
| Normal (a : A) (st : state)
| Throw (e : exn) (st : state)
| OutOfFuel.
Arguments Normal {A} a st.
Arguments Throw {A} e st.
Arguments OutOfFuel {A}.

Definition js (A : Type) : Type := state -> outcome A.

Definition ret {A} (a : A) : js A := fun st => Normal a st.

Definition bind {A B} (c : js A) (k : A -> js B) : js B :=
  fun st =>
    match c st with
    | Normal a st' => k a st'
    | Throw e st' => Throw e st'
    | OutOfFuel => OutOfFuel
    end.

Definition throw {A} (e : exn) : js A := fun st => Throw e st.

Definition out_of_fuel {A} : js A := fun _ => OutOfFuel.

Declare Scope js_scope.
Delimit Scope js_scope with js.
Notation "x <- c1 ;; c2" := (bind c1 (fun x => c2))
  (at level 100, c1 at next level, c2 at level 200, right associativity) : js_scope.
Notation "c1 ;; c2" := (bind c1 (fun _ => c2))
  (at level 100, c2 at level 200, right associativity) : js_scope.
Local Open Scope js_scope.

(** [console.log(line)] *)
Definition console_log (line : string) : js unit :=
  fun st => Normal tt {| heap := heap st; console := console st ++ [line] |}.

(** The i-th actual argument of a call; a missing argument is
    [undefined]. *)
Definition arg (i : nat) (args : list value) : value := nth i args VUndefined.

(** ** Objects *)

(** Allocation of a fresh, empty object of class [C]. *)
Definition alloc (C : string) : js loc :=
  fun st =>
    let l := fresh (dom (heap st)) in
    Normal l {| heap := <[l := Object C ∅]> (heap st); console := console st |}.

(** [this.name], for a name that is a data property: the own property
    when there is one, [undefined] otherwise.  (No property the source
    reads has the name of a method.) *)
Definition get_field (this : loc) (name : string) : js value :=
  fun st =>
    match heap st !! this with
    | Some o => Normal (default VUndefined (fields o !! name)) st
    | None => Normal VUndefined st
    end.

(** [this.name = v] *)
Definition set_field (this : loc) (name : string) (v : value) : js unit :=
  fun st =>
    match heap st !! this with
    | Some o =>
        Normal tt {| heap := <[this := Object (class_of o) (<[name := v]> (fields o))]> (heap st);
                     console := console st |}
    | None => Normal tt st
    end.

(** ** The [this] binding of a constructor

    In the constructor of a class that has no [extends] clause, [this] is
    the new object from the first statement on.  In the constructor of a
    derived class [this] is uninitialised until [super(...)] returns, and
    evaluating [this] before that throws a ReferenceError. *)
Inductive this_binding : Type :=
| Uninitialized
| Bound (l : loc).

Definition resolve_this (t : this_binding) : js loc :=
  match t with
  | Bound l => ret l
  | Uninitialized => throw ReferenceError
  end.

(** ** Classes *)

(** A method body may call methods of other objects; it receives the
    call operator as its first argument (the knot is tied in [invoke]). *)
Definition invoker : Type := value -> string -> list value -> js value.
Definition method : Type := invoker -> loc -> list value -> js value.
Definition constructor : Type := this_binding -> list value -> js unit.

Record class_def := Class {
  extends : option string;          (* the [extends] clause *)
  ctor : option constructor;        (* the explicit constructor, if written *)
  methods : list (string * method)  (* the methods, in declaration order *)
}.

Abbreviation class_table := (gmap string class_def).

Fixpoint assoc {A} (name : string) (l : list (string * A)) : option A :=
  match l with
  | [] => None
  | (k, a) :: l' => if String.eqb k name then Some a else assoc name l'
  end.

(** Method lookup along the [extends] chain, nearest class first.  The
    members of the built-in prototypes ([toString], [valueOf], ...) are
    not modelled; no name the source uses is one of them. *)
Fixpoint lookup_method (CT : class_table) (depth : nat) (C name : string)
  : option method :=
  match depth with
  | 0 => None
  | S d =>
      match CT !! C with
      | None => None
      | Some cd =>
          match assoc name (methods cd) with
          | Some f => Some f
          | None =>
              match extends cd with
              | Some P => lookup_method CT d P name
              | None => None
              end
          end
      end
  end.

(** [recv.name(args)].  A call on [undefined] or [null], and a call of
    something that is not a function (a missing member, an own data
    property, a member of a primitive), throw a TypeError.  Entering a
    method body takes one unit of [fuel], which bounds the depth of
    nested calls. *)
Fixpoint invoke (CT : class_table) (fuel : nat)
                (recv : value) (name : string) (args : list value) : js value :=
  match recv with
  | VObj l => fun st =>
      match heap st !! l with
      | None => Throw TypeError st
      | Some o =>
          match fields o !! name with
          | Some _ => Throw TypeError st
          | None =>
              match lookup_method CT (size CT) (class_of o) name with
              | None => Throw TypeError st
              | Some f =>
                  match fuel with
                  | 0 => OutOfFuel
                  | S n => f (invoke CT n) l args st
                  end
              end
          end
      end
  | _ => throw TypeError
  end.

(** [new C(args)], with [target] the class named after [new].

    - A class without [extends]: the object is allocated first, then the
      constructor body (if one is written) runs with [this] bound to it.
    - A derived class without a constructor has the implicit
      [constructor(...args) { super(...args); }]: construction continues
      in the parent, for the same [target].
    - A derived class with a written constructor runs that body with
      [this] uninitialised.  No constructor of the source calls [super],
      so the body cannot initialise [this]: if it completes at all, the
      implicit [return this] throws the ReferenceError. *)
Fixpoint construct (CT : class_table) (depth : nat) (target C : string)
                   (args : list value) : js loc :=
  match depth with
  | 0 => out_of_fuel
  | S d =>
      match CT !! C with
      | None => throw ReferenceError
      | Some cd =>
          match ctor cd, extends cd with
          | Some body, None =>
              l <- alloc target ;; body (Bound l) args ;; ret l
          | None, None => alloc target
          | None, Some P => construct CT d target P args
          | Some body, Some _ =>
              body Uninitialized args ;; throw ReferenceError
          end
      end
  end.

Definition new (CT : class_table) (C : string) (args : list value) : js value :=
  l <- construct CT (size CT) C C args ;; ret (VObj l).

(** ** Numbers

    A Number is an IEEE 754 binary64 value, which is what Rocq's
    primitive [float] is (with one NaN, as in JavaScript). *)

(** Two parts of the language are left to the engine and are parameters
    here: the parsing of a string as a numeric literal, and the finite
    case of exponentiation (ECMA-262: "an implementation-approximated
    Number value"). *)
Record Host := {
  StringToNumber : string -> float;
  pow_approx : float -> float -> float
}.

(** [Math.PI], the binary64 value nearest to pi. *)
Definition Math_PI : float := 0x1.921fb54442d18p+1%float.

Section Numbers.
Context (host : Host).

(** ToNumber.  An object of the source's classes has no [valueOf] or
    [toString] of its own, so it converts through "[object Object]" to
    NaN. *)
Definition ToNumber (v : value) : float :=
  match v with
  | VUndefined => nan
  | VNull => 0%float
  | VBool true => 1%float
  | VBool false => 0%float
  | VNum n => n
  | VStr s => StringToNumber host s
  | VObj _ => nan
  end.

(** Is [x] an integer, and is it an odd one?  A finite non-zero float is
    [m * 2^e] for the mantissa and exponent that [Prim2SF] returns. *)
Definition is_integral (x : float) : bool :=
  match Prim2SF x with
  | S754_zero _ => true
  | S754_finite _ m e =>
      (0 <=? e)%Z || (Z.pos m mod 2 ^ (- e) =? 0)%Z
  | _ => false
  end.

Definition is_odd_integral (x : float) : bool :=
  match Prim2SF x with
  | S754_finite _ m e =>
      if (e =? 0)%Z then Z.odd (Z.pos m)
      else if (0 <? e)%Z then false
      else (Z.pos m mod 2 ^ (- e) =? 0)%Z && Z.odd (Z.pos m / 2 ^ (- e))
  | _ => false
  end.

(** [base ** exponent] on Numbers: Number::exponentiate of ECMA-262,
    step by step. *)
Definition exponentiate (base exponent : float) : float :=
  if is_nan exponent then nan                                    (* 1 *)
  else if is_zero exponent then 1%float                           (* 2 *)
  else if is_nan base then nan                                    (* 3 *)
  else
    match classify base with
    | PInf => if (0 <? exponent)%float then infinity else 0%float (* 4 *)
    | NInf =>                                                     (* 5 *)
        if (0 <? exponent)%float
        then (if is_odd_integral exponent then neg_infinity else infinity)
        else (if is_odd_integral exponent then neg_zero else 0%float)
    | PZero => if (0 <? exponent)%float then 0%float else infinity (* 6 *)
    | NZero =>                                                    (* 7 *)
        if (0 <? exponent)%float
        then (if is_odd_integral exponent then neg_zero else 0%float)
        else (if is_odd_integral exponent then neg_infinity else infinity)
    | _ =>
        match classify exponent with
        | PInf =>                                                 (* 9 *)
            if (1 <? abs base)%float then infinity
            else if (abs base =? 1)%float then nan
            else 0%float
        | NInf =>                                                 (* 10 *)
            if (1 <? abs base)%float then 0%float
            else if (abs base =? 1)%float then nan
            else infinity
        | _ =>
            if (base <? 0)%float && negb (is_integral exponent)
            then nan                                              (* 12 *)
            else pow_approx host base exponent                    (* 13 *)
        end
    end.

(** The operators [*], [/] and [**] on operands that are not bigints. *)
Definition mul (a b : value) : value := VNum (ToNumber a * ToNumber b).
Definition div (a b : value) : value := VNum (ToNumber a / ToNumber b).
Definition pow (a b : value) : value := VNum (exponentiate (ToNumber a) (ToNumber b)).

End Numbers.

(** [a === b] *)
Definition strict_equal (a b : value) : bool :=
  match a, b with
  | VUndefined, VUndefined => true
  | VNull, VNull => true
  | VBool x, VBool y => Bool.eqb x y
  | VNum x, VNum y => (x =? y)%float
  | VStr x, VStr y => String.eqb x y
  | VObj x, VObj y => Pos.eqb x y
  | _, _ => false
  end.

(** ** Observations on states and outcomes *)

Definition initial : state := {| heap := ∅; console := [] |}.

(** [l] is an object of class [C] (created by [new C], its class never
    changes). *)
Definition is_instance (st : state) (l : loc) (C : string) : bool :=
  match heap st !! l with
  | Some o => String.eqb (class_of o) C
  | None => false
  end.

(** [l] has no own property called [name] (nothing shadows the member of
    that name that its class provides). *)
Definition no_own (st : state) (l : loc) (name : string) : bool :=
  match heap st !! l with
  | Some o => match fields o !! name with Some _ => false | None => true end
  | None => true
  end.

(** The own property [name] of [l], if there is one. *)
Definition own (st : state) (l : loc) (name : string) : option value :=
  o ← heap st !! l; fields o !! name.

(** The value of a call is dropped, as in the expression statement
    [recv.name();] followed by the end of the method. *)
Definition drop_value (o : outcome value) : outcome value :=
  match o with
  | Normal _ st => Normal VUndefined st
  | other => other
  end.

(** The completion is void: it is not a normal completion with a value
    other than [undefined]. *)
Definition returns_void (o : outcome value) : Prop :=
  match o with
  | Normal v _ => v = VUndefined
  | _ => True
  end.

Definition completes {A} (o : outcome A) : bool :=
  match o with Normal _ _ => true | _ => false end.

Definition throws {A} (o : outcome A) : bool :=
  match o with Throw _ _ => true | _ => false end.

(** The heap at the end of a computation started in [st] is the heap of
    [st]. *)
Definition heap_unchanged {A} (st : state) (o : outcome A) : Prop :=
  match o with
  | Normal _ st' | Throw _ st' => heap st' = heap st
  | OutOfFuel => True
  end.

(** Adding one line to the console. *)
Definition logged (st : state) (line : string) : state :=
  {| heap := heap st; console := console st ++ [line] |}.

End JS.

Import JS.
Local Open Scope js_scope.

(* ================================================================== *)
(** * Part 1b: the classes of the source, snippet by snippet            *)
(* ================================================================== *)

(** ** Dependency inversion, applied: [Engine] and the [Car] that is given
    its engine *)
Module DipGood.

(** [start() { console.log("Engine started"); }] *)
Definition Engine_start : method := fun _ this args =>
  console_log "Engine started" ;; ret VUndefined.

Definition Engine : class_def :=
  {| extends := None; ctor := None; methods := [("start", Engine_start)] |}.

(** [constructor(engine) { this.engine = engine; }] *)
Definition Car_constructor : constructor := fun this args =>
  let engine := arg 0 args in
  t <- resolve_this this ;; set_field t "engine" engine.

(** [start() { this.engine.start(); }] *)
Definition Car_start : method := fun call this args =>
  e <- get_field this "engine" ;;
  call e "start" [] ;;
  ret VUndefined.

Definition Car : class_def :=
  {| extends := None; ctor := Some Car_constructor; methods := [("start", Car_start)] |}.

Definition CT : class_table := {[ "Engine" := Engine; "Car" := Car ]}.

End DipGood.

(** ** Open-closed, applied: [Shape], [Rectangle], [Circle] *)
Module OcpGood.
Section WithHost.
Context (host : Host).

(** [area() {}] *)
Definition Shape_area : method := fun _ this args => ret VUndefined.

Definition Shape : class_def :=
  {| extends := None; ctor := None; methods := [("area", Shape_area)] |}.

(** [constructor(width, height) { this.width = width; this.height = height; }]
    in a class that [extends Shape]; there is no [super()] call. *)
Definition Rectangle_constructor : constructor := fun this args =>
  let width := arg 0 args in
  let height := arg 1 args in
  t <- resolve_this this ;; set_field t "width" width ;;
  t <- resolve_this this ;; set_field t "height" height.

(** [area() { return this.width * this.height; }] *)
Definition Rectangle_area : method := fun _ this args =>
  w <- get_field this "width" ;;
  h <- get_field this "height" ;;
  ret (mul host w h).

Definition Rectangle : class_def :=
  {| extends := Some "Shape"; ctor := Some Rectangle_constructor;
     methods := [("area", Rectangle_area)] |}.

(** [constructor(radius) { this.radius = radius; }] in a class that
    [extends Shape]; there is no [super()] call. *)
Definition Circle_constructor : constructor := fun this args =>
  let radius := arg 0 args in
  t <- resolve_this this ;; set_field t "radius" radius.

(** [area() { return Math.PI * this.radius ** 2; }] *)
Definition Circle_area : method := fun _ this args =>
  r <- get_field this "radius" ;;
  ret (mul host (VNum Math_PI) (pow host r (VNum 2))).

Definition Circle : class_def :=
  {| extends := Some "Shape"; ctor := Some Circle_constructor;
     methods := [("area", Circle_area)] |}.

Definition CT : class_table :=
  {[ "Shape" := Shape; "Rectangle" := Rectangle; "Circle" := Circle ]}.

End WithHost.
End OcpGood.

(** ** Open-closed, violated: [ShapeCalculator] *)
Module OcpBad.
Section WithHost.
Context (host : Host).

(** [[
calculateArea(shape, width, height) {
    if (shape === "rectangle") {
        return width * height;
    } else if (shape === "circle") {
        return Math.PI * (width / 2) ** 2;
    }
}
]] *)
Definition calculateArea : method := fun _ this args =>
  let shape := arg 0 args in
  let width := arg 1 args in
  let height := arg 2 args in
  if strict_equal shape (VStr "rectangle") then
    ret (mul host width height)
  else if strict_equal shape (VStr "circle") then
    ret (mul host (VNum Math_PI) (pow host (div host width (VNum 2)) (VNum 2)))
  else
    ret VUndefined.

Definition ShapeCalculator : class_def :=
  {| extends := None; ctor := None; methods := [("calculateArea", calculateArea)] |}.

Definition CT : class_table := {[ "ShapeCalculator" := ShapeCalculator ]}.

End WithHost.
End OcpBad.

(** ** Liskov substitution, applied: [Bird], [Sparrow], [Penguin] *)
Module LspGood.

(** [fly() {}] *)
Definition Bird_fly : method := fun _ this args => ret VUndefined.

Definition Bird : class_def :=
  {| extends := None; ctor := None; methods := [("fly", Bird_fly)] |}.

(** [fly() { console.log("I can fly at a moderate speed"); }] *)
Definition Sparrow_fly : method := fun _ this args =>
  console_log "I can fly at a moderate speed" ;; ret VUndefined.

Definition Sparrow : class_def :=
  {| extends := Some "Bird"; ctor := None; methods := [("fly", Sparrow_fly)] |}.

(** [fly() { console.log("I can't fly but I can swim"); }] *)
Definition Penguin_fly : method := fun _ this args =>
  console_log "I can't fly but I can swim" ;; ret VUndefined.

Definition Penguin : class_def :=
  {| extends := Some "Bird"; ctor := None; methods := [("fly", Penguin_fly)] |}.

Definition CT : class_table :=
  {[ "Bird" := Bird; "Sparrow" := Sparrow; "Penguin" := Penguin ]}.

(** The classes the snippet presents as substitutable for [Bird]. *)
Definition birds : list string := ["Sparrow"; "Penguin"].

End LspGood.

(** ** Liskov substitution, violated: [Vehicle], [Car], [Boat] *)
Module LspBad.

(** [startEngine() {}] and [drive() {}] *)
Definition Vehicle_startEngine : method := fun _ this args => ret VUndefined.
Definition Vehicle_drive : method := fun _ this args => ret VUndefined.

Definition Vehicle : class_def :=
  {| extends := None; ctor := None;
     methods := [("startEngine", Vehicle_startEngine); ("drive", Vehicle_drive)] |}.

(** [startEngine() { console.log("Engine started"); }] *)
Definition Car_startEngine : method := fun _ this args =>
  console_log "Engine started" ;; ret VUndefined.

(** [drive() { console.log("Driving on the road"); }] *)
Definition Car_drive : method := fun _ this args =>
  console_log "Driving on the road" ;; ret VUndefined.

Definition Car : class_def :=
  {| extends := Some "Vehicle"; ctor := None;
     methods := [("startEngine", Car_startEngine); ("drive", Car_drive)] |}.

(** [startEngine() { console.log("Engine started"); }] *)
Definition Boat_startEngine : method := fun _ this args =>
  console_log "Engine started" ;; ret VUndefined.

(** [drive() { throw new Error("I can't drive, I can only float!"); }] *)
Definition Boat_drive : method := fun _ this args =>
  throw (Error "I can't drive, I can only float!").

Definition Boat : class_def :=
  {| extends := Some "Vehicle"; ctor := None;
     methods := [("startEngine", Boat_startEngine); ("drive", Boat_drive)] |}.

Definition CT : class_table :=
  {[ "Vehicle" := Vehicle; "Car" := Car; "Boat" := Boat ]}.

End LspBad.

(** The two interface-segregation snippets use [interface] declarations
    and [implements] clauses.  They have no run-time content (a class with
    them is a class without them): an interface is kept as the list of
    the member names it asks for. *)
Definition interface : Type := list string.

(** ** Interface segregation, applied: three narrow interfaces *)
Module IspGood.

(** [interface Flyable { fly(); }], [interface Swimmable { swim(); }],
    [interface Runnable { run(); }] *)
Definition Flyable : interface := ["fly"].
Definition Swimmable : interface := ["swim"].
Definition Runnable : interface := ["run"].

(** [fly() { console.log("I can fly at a moderate speed"); }] *)
Definition Sparrow_fly : method := fun _ this args =>
  console_log "I can fly at a moderate speed" ;; ret VUndefined.

(** [run() { console.log("I can run on the ground"); }] *)
Definition Sparrow_run : method := fun _ this args =>
  console_log "I can run on the ground" ;; ret VUndefined.

(** [class Sparrow implements Flyable, Runnable] *)
Definition Sparrow_implements : list interface := [Flyable; Runnable].

Definition Sparrow : class_def :=
  {| extends := None; ctor := None;
     methods := [("fly", Sparrow_fly); ("run", Sparrow_run)] |}.

(** [swim() { console.log("I can swim in water"); }] *)
Definition Penguin_swim : method := fun _ this args =>
  console_log "I can swim in water" ;; ret VUndefined.

(** [run() { console.log("I can run on the ground"); }] *)
Definition Penguin_run : method := fun _ this args =>
  console_log "I can run on the ground" ;; ret VUndefined.

(** [class Penguin implements Swimmable, Runnable] *)
Definition Penguin_implements : list interface := [Swimmable; Runnable].

Definition Penguin : class_def :=
  {| extends := None; ctor := None;
     methods := [("swim", Penguin_swim); ("run", Penguin_run)] |}.

Definition CT : class_table := {[ "Sparrow" := Sparrow; "Penguin" := Penguin ]}.

End IspGood.

(** ** Interface segregation, violated: one wide interface *)
Module IspBad.

(** [interface Animal { fly(); swim(); run(); }] *)
Definition Animal : interface := ["fly"; "swim"; "run"].

(** [fly() { console.log("I can fly at a moderate speed"); }] *)
Definition Sparrow_fly : method := fun _ this args =>
  console_log "I can fly at a moderate speed" ;; ret VUndefined.

(** [swim() { throw new Error("I can't swim, I can only fly!"); }] *)
Definition Sparrow_swim : method := fun _ this args =>
  throw (Error "I can't swim, I can only fly!").

(** [run() { console.log("I can run on the ground"); }] *)
Definition Sparrow_run : method := fun _ this args =>
  console_log "I can run on the ground" ;; ret VUndefined.

(** [class Sparrow implements Animal] *)
Definition Sparrow_implements : list interface := [Animal].

Definition Sparrow : class_def :=
  {| extends := None; ctor := None;
     methods := [("fly", Sparrow_fly); ("swim", Sparrow_swim); ("run", Sparrow_run)] |}.

(** [fly() { throw new Error("I can't fly, I can only swim!"); }] *)
Definition Penguin_fly : method := fun _ this args =>
  throw (Error "I can't fly, I can only swim!").

(** [swim() { console.log("I can swim in water"); }] *)
Definition Penguin_swim : method := fun _ this args =>
  console_log "I can swim in water" ;; ret VUndefined.

(** [run() { console.log("I can run on the ground"); }] *)
Definition Penguin_run : method := fun _ this args =>
  console_log "I can run on the ground" ;; ret VUndefined.

(** [class Penguin implements Animal] *)
Definition Penguin_implements : list interface := [Animal].

Definition Penguin : class_def :=
  {| extends := None; ctor := None;
     methods := [("fly", Penguin_fly); ("swim", Penguin_swim); ("run", Penguin_run)] |}.

Definition CT : class_table := {[ "Sparrow" := Sparrow; "Penguin" := Penguin ]}.

End IspBad.

(* ================================================================== *)
(** * Part 1c: concrete states and observations used in the statements  *)
(* ================================================================== *)

(** The state [st] with the object [o] stored at [l]. *)
Definition with_object (st : state) (l : loc) (o : object) : state :=
  {| heap := <[l := o]> (heap st); console := console st |}.

(** The state right after [new C()] (for a class without fields) or
    [new Car(engine)] ran in [st]. *)
Definition after_new (st : state) (C : string) (fs : gmap string value) : state :=
  with_object st (fresh (dom (heap st))) (Object C fs).

(** The value a call returned, if it returned. *)
Definition returned (o : outcome value) : option value :=
  match o with
  | Normal v _ => Some v
  | _ => None
  end.

(** Both calls returned, and [===] holds of what they returned. *)
Definition agree (a b : outcome value) : bool :=
  match a, b with
  | Normal x _, Normal y _ => strict_equal x y
  | _, _ => false
  end.

(** A host to run the examples with on concrete inputs: it squares by
    one multiplication, which gives the correctly rounded square, and it
    reads no string as a number (no concrete run below passes one). *)
Definition sample_host : Host :=
  {| StringToNumber := fun _ => nan;
     pow_approx := fun b e => if (e =? 2)%float then (b * b)%float else nan |}.

(** [Circle.prototype.area] called on an object that has the class
    [Circle] and the one field [radius], as the constructor means to
    build it. *)
Definition Circle_area_of (host : Host) (radius : value) : outcome value :=
  invoke (OcpGood.CT host) 1 (VObj 1%positive) "area" []
    (with_object initial 1%positive (Object "Circle" {[ "radius" := radius ]})).

(** [new ShapeCalculator().calculateArea(shape, width, height)] *)
Definition calculateArea_of (host : Host) (shape width height : value) : outcome value :=
  (c <- new (OcpBad.CT host) "ShapeCalculator" [] ;;
   invoke (OcpBad.CT host) 1 c "calculateArea" [shape; width; height]) initial.

(** One object of each kind, for the concrete runs. *)
Definition one_object (C : string) : state :=
  with_object initial 1%positive (Object C ∅).

(* ================================================================== *)
(** * Part 1d: the remaining snippets, and client programs             *)
(* ================================================================== *)

(** ** The operators [+] and [-]

    [a + b] concatenates when either operand becomes a string under
    ToPrimitive, which of the values here a string and an object do (an
    object of the source's classes becomes "[object Object]"); otherwise
    it adds the operands as Numbers.  [a - b] always subtracts Numbers.
    The decimal text of a Number is left to the engine, like the reading
    of a string as a Number. *)
Section Additive.
Context (host : Host) (NumberToString : float -> string).

Definition ToString (v : value) : string :=
  match v with
  | VUndefined => "undefined"
  | VNull => "null"
  | VBool true => "true"
  | VBool false => "false"
  | VNum n => NumberToString n
  | VStr s => s
  | VObj _ => "[object Object]"
  end.

Definition becomes_string (v : value) : bool :=
  match v with
  | VStr _ | VObj _ => true
  | _ => false
  end.

Definition add (a b : value) : value :=
  if becomes_string a || becomes_string b
  then VStr (String.append (ToString a) (ToString b))
  else VNum (ToNumber host a + ToNumber host b).

Definition sub (a b : value) : value := VNum (ToNumber host a - ToNumber host b).

End Additive.

(** ** Single responsibility, applied: [BankAccount] *)
Module SrpGood.
Section WithHost.
Context (host : Host) (NumberToString : float -> string).

(** [constructor(balance) { this.balance = balance; }] *)
Definition BankAccount_constructor : constructor := fun this args =>
  let balance := arg 0 args in
  t <- resolve_this this ;; set_field t "balance" balance.

(** [deposit(amount) { this.balance += amount; }] *)
Definition deposit : method := fun _ this args =>
  let amount := arg 0 args in
  b <- get_field this "balance" ;;
  set_field this "balance" (add host NumberToString b amount) ;;
  ret VUndefined.

(** [withdraw(amount) { this.balance -= amount; }] *)
Definition withdraw : method := fun _ this args =>
  let amount := arg 0 args in
  b <- get_field this "balance" ;;
  set_field this "balance" (sub host b amount) ;;
  ret VUndefined.

Definition BankAccount : class_def :=
  {| extends := None; ctor := Some BankAccount_constructor;
     methods := [("deposit", deposit); ("withdraw", withdraw)] |}.

Definition CT : class_table := {[ "BankAccount" := BankAccount ]}.

End WithHost.
End SrpGood.

(** ** Single responsibility, violated: [BankAccount] with two more jobs *)
Module SrpBad.
Section WithHost.
Context (host : Host) (NumberToString : float -> string).

(** [constructor(balance) { this.balance = balance; }] *)
Definition BankAccount_constructor : constructor := fun this args =>
  let balance := arg 0 args in
  t <- resolve_this this ;; set_field t "balance" balance.

(** [deposit(amount) { this.balance += amount; }] *)
Definition deposit : method := fun _ this args =>
  let amount := arg 0 args in
  b <- get_field this "balance" ;;
  set_field this "balance" (add host NumberToString b amount) ;;
  ret VUndefined.

(** [withdraw(amount) { this.balance -= amount; }] *)
Definition withdraw : method := fun _ this args =>
  let amount := arg 0 args in
  b <- get_field this "balance" ;;
  set_field this "balance" (sub host b amount) ;;
  ret VUndefined.

(** [sendEmailNotification(email) { }] (the body is a comment) *)
Definition sendEmailNotification : method := fun _ this args =>
  let email := arg 0 args in
  ret VUndefined.

(** [logTransaction() { }] (the body is a comment) *)
Definition logTransaction : method := fun _ this args => ret VUndefined.

Definition BankAccount : class_def :=
  {| extends := None; ctor := Some BankAccount_constructor;
     methods := [("deposit", deposit); ("withdraw", withdraw);
                 ("sendEmailNotification", sendEmailNotification);
                 ("logTransaction", logTransaction)] |}.

Definition CT : class_table := {[ "BankAccount" := BankAccount ]}.

End WithHost.
End SrpBad.

(** ** Dependency inversion, violated: the [Car] that builds its
    [GasEngine] *)
Module DipBad.

(** [start() { console.log("Gas Engine started"); }] *)
Definition GasEngine_start : method := fun _ this args =>
  console_log "Gas Engine started" ;; ret VUndefined.

Definition GasEngine : class_def :=
  {| extends := None; ctor := None; methods := [("start", GasEngine_start)] |}.

(** [constructor() { this.engine = new GasEngine(); }].  The name
    [GasEngine] in the body is the class declared just above. *)
Definition Car_constructor : constructor := fun this args =>
  t <- resolve_this this ;;
  e <- new {[ "GasEngine" := GasEngine ]} "GasEngine" [] ;;
  set_field t "engine" e.

(** [start() { this.engine.start(); }] *)
Definition Car_start : method := fun call this args =>
  e <- get_field this "engine" ;;
  call e "start" [] ;;
  ret VUndefined.

Definition Car : class_def :=
  {| extends := None; ctor := Some Car_constructor; methods := [("start", Car_start)] |}.

Definition CT : class_table := {[ "GasEngine" := GasEngine; "Car" := Car ]}.

End DipBad.

(** ** Client programs *)

(** A run of deposits and withdrawals on one account:
    [acct.deposit(a); acct.withdraw(b); ...] *)
Inductive transaction : Type :=
| Deposit (amount : value)
| Withdraw (amount : value).

Definition amount_of (t : transaction) : value :=
  match t with Deposit a | Withdraw a => a end.

Definition perform (CT : class_table) (fuel : nat) (acct : value) (t : transaction)
  : js value :=
  match t with
  | Deposit a => invoke CT fuel acct "deposit" [a]
  | Withdraw a => invoke CT fuel acct "withdraw" [a]
  end.

Fixpoint perform_all (CT : class_table) (fuel : nat) (acct : value)
                     (ts : list transaction) : js unit :=
  match ts with
  | [] => ret tt
  | t :: ts' => perform CT fuel acct t ;; perform_all CT fuel acct ts'
  end.

(** What the balance of a Number account is after the run, computed on
    Numbers alone. *)
Definition settle (host : Host) (b : float) (ts : list transaction) : float :=
  fold_left (fun b t =>
               match t with
               | Deposit a => (b + ToNumber host a)%float
               | Withdraw a => (b - ToNumber host a)%float
               end) ts b.

(** [new Car(new Car(... new Car(P) ...))], with [k] cars around [P]. *)
Fixpoint wrap_in_cars (k : nat) (P : value) : js value :=
  match k with
  | 0 => ret P
  | S k' => c <- new DipGood.CT "Car" [P] ;; wrap_in_cars k' c
  end.

(** [v.startEngine(); v.drive();] *)
Definition start_and_drive (fuel : nat) (v : value) : js value :=
  invoke LspBad.CT fuel v "startEngine" [] ;;
  invoke LspBad.CT fuel v "drive" [].

(** [for (const b of birds) b.fly();] *)
Fixpoint fly_all (fuel : nat) (birds : list value) : js unit :=
  match birds with
  | [] => ret tt
  | b :: bs => invoke LspGood.CT fuel b "fly" [] ;; fly_all fuel bs
  end.

(** The heap of [st'] has every object of [st], unchanged. *)
Definition extends_heap (st st' : state) : Prop :=
  forall (l : loc) (o : object), heap st !! l = Some o -> heap st' !! l = Some o.

(** [st'] differs from [st] at most in the field [name] of the object
    [l]: same console, same other objects, same class and same other
    fields of [l]. *)
Definition only_field_changed (st st' : state) (l : loc) (name : string) : Prop :=
  console st' = console st /\
  (forall l' : loc, l' <> l -> heap st' !! l' = heap st !! l') /\
  (forall C : string, is_instance st' l C = is_instance st l C) /\
  (forall name' : string, name' <> name -> own st' l name' = own st l name').

(** An engine for the concrete runs that prints a Number as the empty
    text (no concrete run below prints one). *)
Definition sample_text : float -> string := fun _ => "".

(** The balance field as [this.balance] reads it. *)
Definition balance_of (st : state) (a : loc) : value :=
  default VUndefined (own st a "balance").

(** The balance a transaction computes from the balance it reads. *)
Definition after_transaction (host : Host) (NumberToString : float -> string)
                             (b : value) (t : transaction) : value :=
  match t with
  | Deposit a => add host NumberToString b a
  | Withdraw a => sub host b a
  end.

(** ** Kinds of values

    The operators above are written for the kinds of values that [value]
    has.  On a primitive of these kinds they run no code of the program
    and they do not throw; the statements about arithmetic below say for
    which kinds of operands they are made. *)

(** [v] is [undefined], [null], a boolean or a Number: an operand that
    every arithmetic operator reads as a Number. *)
Definition converts_to_number (v : value) : bool :=
  match v with
  | VUndefined | VNull | VBool _ | VNum _ => true
  | VStr _ | VObj _ => false
  end.

(** [v] is a primitive: one of those, or a string. *)
Definition plain (v : value) : bool :=
  match v with
  | VObj _ => false
  | _ => true
  end.

(** ** More observations *)

(** What a computation threw, if it threw. *)
Definition thrown {A} (o : outcome A) : option exn :=
  match o with
  | Throw e _ => Some e
  | _ => None
  end.

(** The [name] of an error object, which is how JavaScript tells kinds
    of errors apart: "Error" for [new Error(message)], whatever the
    message. *)
Definition error_name (e : exn) : string :=
  match e with
  | Error _ => "Error"
  | TypeError => "TypeError"
  | ReferenceError => "ReferenceError"
  end.

(** ** More client code *)

(** [target.name = v], for the clients of the classes.  Class bodies and
    modules are strict code, where an assignment to a property of
    something that is not an object throws a TypeError. *)
Definition assign (target : value) (name : string) (v : value) : js unit :=
  match target with
  | VObj l => set_field l name v
  | _ => throw TypeError
  end.

(** The run of [perform_all], keeping what each call returned. *)
Fixpoint perform_each (CT : class_table) (fuel : nat) (acct : value)
                      (ts : list transaction) : js (list value) :=
  match ts with
  | [] => ret []
  | t :: ts' =>
      v <- perform CT fuel acct t ;;
      vs <- perform_each CT fuel acct ts' ;;
      ret (v :: vs)
  end.

(** [Car] accepts as its engine whatever has a [start()].  The source has
    one such class, [Engine]; this is one that a client could write, next
    to the two classes of the snippet:
    [[
    class Saboteur {
        start() { this.target.engine = null; }
    }
    ]] *)
Module Client.

Definition Saboteur_start : method := fun _ this args =>
  t <- get_field this "target" ;;
  assign t "engine" VNull ;;
  ret VUndefined.

Definition Saboteur : class_def :=
  {| extends := None; ctor := None; methods := [("start", Saboteur_start)] |}.

Definition CT : class_table := <[ "Saboteur" := Saboteur ]> DipGood.CT.

End Client.

(* ================================================================== *)
(** * Part 2: properties                                                *)
(* ================================================================== *)

(** ** Facts about the model *)

#[local] Arguments String.eqb : simpl never.

Section ModelFacts.
Context (CT : class_table).

Lemma table_not_empty C cd : CT !! C = Some cd -> exists d, size CT = S d.
Proof.
  intros H. destruct (size CT) as [|d] eqn:E; [|eauto].
  apply map_size_empty_iff in E. rewrite E in H.
  rewrite lookup_empty in H. discriminate.
Qed.

(** A method written in the class itself is the one a call finds. *)
Lemma lookup_method_own C cd name f :
  CT !! C = Some cd -> assoc name (methods cd) = Some f ->
  lookup_method CT (size CT) C name = Some f.
Proof.
  intros HC Hm. destruct (table_not_empty _ _ HC) as [d ->].
  simpl. now rewrite HC, Hm.
Qed.

(** The unfolding of a call on an object whose class provides the
    method and that has no own property of that name. *)
Lemma invoke_method n l o name f args st :
  heap st !! l = Some o -> fields o !! name = None ->
  lookup_method CT (size CT) (class_of o) name = Some f ->
  invoke CT (S n) (VObj l) name args st = f (invoke CT n) l args st.
Proof. intros Hl Hf Hm. simpl. now rewrite Hl, Hf, Hm. Qed.

(** A call on [undefined] or [null] is a TypeError. *)
Lemma invoke_nullish n v name args st :
  v = VNull \/ v = VUndefined ->
  invoke CT n v name args st = Throw TypeError st.
Proof. now intros [-> | ->]; destruct n. Qed.

End ModelFacts.

Lemma fresh_not_allocated st : heap st !! fresh (dom (heap st)) = None.
Proof. apply not_elem_of_dom, is_fresh. Qed.

Lemma instance_inv st l C name :
  is_instance st l C = true -> no_own st l name = true ->
  exists o, heap st !! l = Some o /\ class_of o = C /\ fields o !! name = None.
Proof.
  unfold is_instance, no_own. destruct (heap st !! l) as [o|]; [|discriminate].
  intros HC Hn. exists o. split; [reflexivity|]. split.
  - now apply String.eqb_eq.
  - destruct (fields o !! name); [discriminate | reflexivity].
Qed.

(** Objects that exist keep their place when a new one is allocated. *)
Lemma after_new_other st C fs l o :
  heap st !! l = Some o -> heap (after_new st C fs) !! l = Some o.
Proof.
  intros H. unfold after_new, with_object. simpl.
  rewrite lookup_insert_ne; [exact H|].
  intros E. rewrite <- E in H. rewrite fresh_not_allocated in H. discriminate.
Qed.

Lemma drop_value_void (o : outcome value) : returns_void o -> drop_value o = o.
Proof. destruct o; simpl; intros; subst; reflexivity. Qed.

(** ** [Car] and [Engine] (dependency inversion, applied) *)

Section CarFacts.
Context (CT : class_table) (HCar : CT !! "Car" = Some DipGood.Car).

(** [new Car(engine)] allocates one object, stores [engine] in it
    unexamined, and returns it. *)
Lemma new_Car args st :
  new CT "Car" args st =
  Normal (VObj (fresh (dom (heap st))))
         (after_new st "Car" {[ "engine" := arg 0 args ]}).
Proof.
  unfold new, bind. destruct (table_not_empty _ _ _ HCar) as [d ->].
  simpl. rewrite HCar. simpl.
  unfold bind, alloc, DipGood.Car_constructor, bind, resolve_this, ret, set_field.
  simpl. rewrite lookup_insert_eq. simpl.
  unfold after_new, with_object. rewrite insert_insert_eq.
  now rewrite insert_empty.
Qed.

(** [car.start()] is [car.engine.start()] with the value dropped. *)
Lemma Car_start_unfold n c o args st :
  heap st !! c = Some o -> class_of o = "Car" -> fields o !! "start" = None ->
  invoke CT (S n) (VObj c) "start" args st =
  drop_value (invoke CT n (default VUndefined (fields o !! "engine")) "start" [] st).
Proof.
  intros Hc HC Hs.
  rewrite (invoke_method CT n c o "start" DipGood.Car_start); auto.
  - unfold DipGood.Car_start, bind, get_field. rewrite Hc.
    now destruct (invoke CT n _ "start" [] st).
  - rewrite HC. now apply lookup_method_own with (cd := DipGood.Car).
Qed.

End CarFacts.

(** [engine.start()] on an [Engine]: one line on the console, nothing
    returned. *)
Lemma Engine_start_runs (CT : class_table) n e st :
  CT !! "Engine" = Some DipGood.Engine ->
  is_instance st e "Engine" = true -> no_own st e "start" = true ->
  invoke CT (S n) (VObj e) "start" [] st = Normal VUndefined (logged st "Engine started").
Proof.
  intros HE Hi Hn. destruct (instance_inv _ _ _ _ Hi Hn) as (o & Ho & HC & Hf).
  rewrite (invoke_method CT n e o "start" DipGood.Engine_start); auto.
  rewrite HC. now apply lookup_method_own with (cd := DipGood.Engine).
Qed.

(** The methods a call can reach in this snippet. *)
Lemma DipGood_methods C name f :
  lookup_method DipGood.CT (size DipGood.CT) C name = Some f ->
  name = "start" /\ (f = DipGood.Engine_start \/ f = DipGood.Car_start).
Proof.
  change (size DipGood.CT) with 2. unfold DipGood.CT. simpl lookup_method.
  destruct (decide (C = "Engine")) as [-> | HnE].
  - rewrite lookup_insert_eq. simpl.
    destruct (String.eqb_spec "start" name); simpl; [|discriminate].
    intros [= <-]. auto.
  - rewrite lookup_insert_ne by congruence.
    destruct (decide (C = "Car")) as [-> | HnC].
    + rewrite lookup_singleton_eq. simpl.
      destruct (String.eqb_spec "start" name); simpl; [|discriminate].
      intros [= <-]. auto.
    + rewrite lookup_singleton_ne by congruence. discriminate.
Qed.

(** No call in this snippet writes to the heap. *)
Lemma DipGood_heap_unchanged n :
  forall recv name args st, heap_unchanged st (invoke DipGood.CT n recv name args st).
Proof.
  induction n as [|n IH]; intros recv name args st;
    (destruct recv; try reflexivity);
    simpl; (destruct (heap st !! l) as [o|] eqn:Hl; [|reflexivity]);
    (destruct (fields o !! name) eqn:Hf; [reflexivity|]);
    (destruct (lookup_method DipGood.CT (size DipGood.CT) (class_of o) name) as [f|] eqn:Hm;
      [|reflexivity]); [exact I|].
  destruct (DipGood_methods _ _ _ Hm) as [-> [-> | ->]].
  - reflexivity.
  - unfold DipGood.Car_start, bind, get_field. rewrite Hl.
    specialize (IH (default VUndefined (fields o !! "engine")) "start" [] st).
    destruct (invoke DipGood.CT n _ "start" [] st); simpl in *; auto.
Qed.

Lemma DipGood_Car : DipGood.CT !! "Car" = Some DipGood.Car.
Proof. reflexivity. Qed.

Lemma DipGood_Engine : DipGood.CT !! "Engine" = Some DipGood.Engine.
Proof. reflexivity. Qed.

(** C1. A [Car] built with the implementer [P] delegates [start()] to it:
    in the state the constructor leaves, [car.start()] does exactly what
    [P.start()] does there (same console output, same thrown error, same
    heap), whatever [P] is and whatever classes exist besides [Car]; the
    method has no branch.  Its own value is [undefined], so the two calls
    have the same completion whenever [P.start()] is void, as the
    [start()] of an [Engine] is: with an [Engine], both calls write
    "Engine started" and return [undefined]. *)
Theorem car_start_delegates_to_engine (CT : class_table) :
  CT !! "Car" = Some DipGood.Car ->
  forall (P : value) (st : state) (n : nat),
  exists (c : loc) (st' : state),
    new CT "Car" [P] st = Normal (VObj c) st' /\
    invoke CT (S n) (VObj c) "start" [] st'
      = drop_value (invoke CT n P "start" [] st') /\
    (returns_void (invoke CT n P "start" [] st') ->
     invoke CT (S n) (VObj c) "start" [] st' = invoke CT n P "start" [] st') /\
    (forall e : loc,
       P = VObj e -> CT !! "Engine" = Some DipGood.Engine ->
       is_instance st e "Engine" = true -> no_own st e "start" = true ->
       invoke CT (S n) P "start" [] st'
         = Normal VUndefined (logged st' "Engine started") /\
       invoke CT (S (S n)) (VObj c) "start" [] st'
         = Normal VUndefined (logged st' "Engine started")).
Proof.
  intros HCar P st n.
  exists (fresh (dom (heap st))), (after_new st "Car" {[ "engine" := P ]}).
  assert (Hstart : forall k,
    invoke CT (S k) (VObj (fresh (dom (heap st)))) "start" []
      (after_new st "Car" {[ "engine" := P ]})
    = drop_value (invoke CT k P "start" [] (after_new st "Car" {[ "engine" := P ]}))).
  { intros k.
    rewrite (Car_start_unfold CT HCar k _ (Object "Car" {[ "engine" := P ]})); simpl.
    - now rewrite lookup_singleton_eq.
    - apply lookup_insert_eq.
    - reflexivity.
    - now apply lookup_singleton_ne. }
  split; [now rewrite new_Car|]. split; [apply Hstart|]. split.
  - intros Hvoid. rewrite Hstart. now apply drop_value_void.
  - intros e -> HE Hi Hn.
    assert (He : invoke CT (S n) (VObj e) "start" [] (after_new st "Car" {[ "engine" := VObj e ]})
                 = Normal VUndefined (logged (after_new st "Car" {[ "engine" := VObj e ]}) "Engine started")).
    { destruct (instance_inv _ _ _ _ Hi Hn) as (o & Ho & HC & Hf).
      apply Engine_start_runs; auto.
      - unfold is_instance. rewrite (after_new_other _ _ _ _ _ Ho).
        rewrite HC. reflexivity.
      - unfold no_own. rewrite (after_new_other _ _ _ _ _ Ho). now rewrite Hf. }
    split; [exact He|]. rewrite Hstart, He. reflexivity.
Qed.

Lemma car_start_delegates_witness :
  DipGood.CT !! "Car" = Some DipGood.Car /\
  exists (c : loc) (st' : state),
    new DipGood.CT "Car" [VObj 1%positive] (one_object "Engine") = Normal (VObj c) st' /\
    invoke DipGood.CT 2 (VObj c) "start" [] st'
      = drop_value (invoke DipGood.CT 1 (VObj 1%positive) "start" [] st').
Proof.
  split; [reflexivity|].
  destruct (car_start_delegates_to_engine DipGood.CT eq_refl
              (VObj 1%positive) (one_object "Engine") 1) as (c & st' & Hnew & Hd & _).
  exists c, st'. split; [exact Hnew | exact Hd].
Defined.

(** C2, as the specification words it, fails: [new Car(null)] does not
    fail, it returns a [Car] whose engine is [null]. *)
Lemma car_constructor_accepts_null :
  new DipGood.CT "Car" [VNull] initial
  = Normal (VObj 1%positive)
           {| heap := {[ 1%positive := Object "Car" {[ "engine" := VNull ]} ]};
              console := [] |}.
Proof. vm_compute. reflexivity. Qed.

(** C2, amended.  The constructor of [Car] has no check: for every
    argument, [null] and [undefined] and a missing argument included,
    [new Car(engine)] succeeds, prints nothing and returns a new [Car]
    whose [engine] field is that argument.  An absent engine is noticed
    only later, by [start()], which then throws a TypeError. *)
Theorem car_constructor_stores_any_engine :
  forall (v : value) (st : state),
  exists (c : loc) (st' : state),
    new DipGood.CT "Car" [v] st = Normal (VObj c) st' /\
    new DipGood.CT "Car" [] st = new DipGood.CT "Car" [VUndefined] st /\
    heap st !! c = None /\
    is_instance st' c "Car" = true /\
    own st' c "engine" = Some v /\
    console st' = console st /\
    (forall n : nat, v = VNull \/ v = VUndefined ->
       invoke DipGood.CT (S n) (VObj c) "start" [] st' = Throw TypeError st').
Proof.
  intros v st.
  exists (fresh (dom (heap st))), (after_new st "Car" {[ "engine" := v ]}).
  split; [now rewrite (new_Car _ DipGood_Car)|].
  split; [now rewrite !(new_Car _ DipGood_Car)|].
  split; [apply fresh_not_allocated|].
  split; [unfold is_instance, after_new; simpl; now rewrite lookup_insert_eq|].
  split; [unfold own, after_new; simpl; rewrite lookup_insert_eq; simpl;
          apply lookup_singleton_eq|].
  split; [reflexivity|].
  intros n Hv.
  rewrite (Car_start_unfold _ DipGood_Car n _ (Object "Car" {[ "engine" := v ]})); simpl.
  - rewrite lookup_singleton_eq. simpl. now rewrite invoke_nullish.
  - apply lookup_insert_eq.
  - reflexivity.
  - now apply lookup_singleton_ne.
Qed.

(** C7, as the specification words it, fails: the binding is not
    immutable.  [engine] is an ordinary property of the [Car].  An
    assignment from outside rebinds a car that was built with an
    [Engine]; and [start()] itself ends with the car rebound when the
    implementer it was given makes that assignment in its own
    [start()]: the car built with the [Saboteur] holds [null] after
    [car.start()]. *)
Lemma car_binding_can_be_rebound :
  (e <- new DipGood.CT "Engine" [] ;;
   c <- new DipGood.CT "Car" [e] ;;
   assign c "engine" VNull ;;
   ret c) initial
  = Normal (VObj 2%positive)
      {| heap := {[ 1%positive := Object "Engine" ∅;
                    2%positive := Object "Car" {[ "engine" := VNull ]} ]};
         console := [] |} /\
  (s <- new Client.CT "Saboteur" [] ;;
   c <- new Client.CT "Car" [s] ;;
   assign s "target" c ;;
   ret c) initial
  = Normal (VObj 2%positive)
      {| heap := {[ 1%positive := Object "Saboteur" {[ "target" := VObj 2%positive ]};
                    2%positive := Object "Car" {[ "engine" := VObj 1%positive ]} ]};
         console := [] |} /\
  invoke Client.CT 2 (VObj 2%positive) "start" []
    {| heap := {[ 1%positive := Object "Saboteur" {[ "target" := VObj 2%positive ]};
                  2%positive := Object "Car" {[ "engine" := VObj 1%positive ]} ]};
       console := [] |}
  = Normal VUndefined
      {| heap := {[ 1%positive := Object "Saboteur" {[ "target" := VObj 2%positive ]};
                    2%positive := Object "Car" {[ "engine" := VNull ]} ]};
         console := [] |}.
Proof. split; [|split]; vm_compute; reflexivity. Qed.

(** C7, amended.  The binding of a [Car] to its engine is made by the
    constructor, and the code of [Car] never writes it again: [start()]
    reads [this.engine], calls its [start()] and does nothing else, so
    whatever has changed after [car.start()] was changed by the engine's
    [start()].  With an [Engine] of the source as the engine that is one
    line on the console and no object; among the two classes of the
    snippet alone no [start()] changes any object.  But the binding is
    not protected: an assignment [car.engine = x] succeeds for every [x],
    and from then on [car.start()] is [x.start()]. *)
Theorem car_binding_is_set_once_but_writable (CT : class_table) :
  CT !! "Car" = Some DipGood.Car ->
  (forall (P : value) (st : state),
   exists (c : loc) (st' : state),
     new CT "Car" [P] st = Normal (VObj c) st' /\
     heap st !! c = None /\
     own st' c "engine" = Some P) /\
  (forall (c : loc) (st : state) (n : nat) (args : list value),
     is_instance st c "Car" = true -> no_own st c "start" = true ->
     invoke CT (S n) (VObj c) "start" args st
     = drop_value (invoke CT n (default VUndefined (own st c "engine")) "start" [] st)) /\
  (CT !! "Engine" = Some DipGood.Engine ->
   forall (c e : loc) (st : state) (n : nat) (args : list value),
     is_instance st c "Car" = true -> no_own st c "start" = true ->
     own st c "engine" = Some (VObj e) ->
     is_instance st e "Engine" = true -> no_own st e "start" = true ->
     exists st' : state,
       invoke CT (S (S n)) (VObj c) "start" args st = Normal VUndefined st' /\
       heap st' = heap st /\
       own st' c "engine" = Some (VObj e) /\
       console st' = (console st ++ ["Engine started"])%list) /\
  (forall (n : nat) (recv : value) (args : list value) (st : state),
     heap_unchanged st (invoke DipGood.CT n recv "start" args st)) /\
  (forall (c : loc) (st : state) (x : value) (n : nat),
     is_instance st c "Car" = true -> no_own st c "start" = true ->
     exists st' : state,
       assign (VObj c) "engine" x st = Normal tt st' /\
       own st' c "engine" = Some x /\
       invoke CT (S n) (VObj c) "start" [] st'
       = drop_value (invoke CT n x "start" [] st')).
Proof.
  intros HCar.
  assert (Hstart : forall (c : loc) (st : state) (n : nat) (args : list value),
    is_instance st c "Car" = true -> no_own st c "start" = true ->
    invoke CT (S n) (VObj c) "start" args st
    = drop_value (invoke CT n (default VUndefined (own st c "engine")) "start" [] st)).
  { intros c st n args Hi Hn.
    destruct (instance_inv _ _ _ _ Hi Hn) as (o & Ho & HC & Hf).
    rewrite (Car_start_unfold CT HCar n c o args st Ho HC Hf).
    unfold own. rewrite Ho. reflexivity. }
  split; [|split; [exact Hstart|split; [|split]]].
  - intros P st.
    exists (fresh (dom (heap st))), (after_new st "Car" {[ "engine" := P ]}).
    split; [now rewrite (new_Car _ HCar)|]. split; [apply fresh_not_allocated|].
    unfold own, after_new. simpl. rewrite lookup_insert_eq. simpl.
    apply lookup_singleton_eq.
  - intros HEng c e st n args Hic Hnc He Hie Hne.
    exists (logged st "Engine started").
    split; [|split; [reflexivity|split; [exact He|reflexivity]]].
    rewrite (Hstart c st (S n) args Hic Hnc), He. simpl default.
    now rewrite (Engine_start_runs CT n e st HEng Hie Hne).
  - intros n recv args st. apply DipGood_heap_unchanged.
  - intros c st x n Hi Hn.
    destruct (instance_inv _ _ _ _ Hi Hn) as (o & Ho & HC & Hf).
    exists (with_object st c (Object (class_of o) (<["engine" := x]> (fields o)))).
    assert (Hown : own (with_object st c (Object (class_of o) (<["engine" := x]> (fields o))))
                     c "engine" = Some x).
    { unfold own, with_object. simpl. rewrite lookup_insert_eq. simpl.
      apply lookup_insert_eq. }
    split; [unfold assign, set_field; now rewrite Ho|]. split; [exact Hown|].
    rewrite Hstart, Hown; [reflexivity| |].
    + unfold is_instance, with_object. simpl. rewrite lookup_insert_eq. simpl.
      rewrite HC. reflexivity.
    + unfold no_own, with_object. simpl. rewrite lookup_insert_eq. simpl.
      rewrite lookup_insert_ne by discriminate. now rewrite Hf.
Qed.

Lemma car_binding_witness :
  Client.CT !! "Car" = Some DipGood.Car /\
  exists st' : state,
    assign (VObj 2%positive) "engine" VNull
      (with_object (one_object "Engine") 2%positive
         (Object "Car" {[ "engine" := VObj 1%positive ]}))
    = Normal tt st' /\
    own st' 2%positive "engine" = Some VNull /\
    invoke Client.CT 1 (VObj 2%positive) "start" [] st'
    = drop_value (invoke Client.CT 0 VNull "start" [] st').
Proof.
  assert (HCar : Client.CT !! "Car" = Some DipGood.Car) by reflexivity.
  split; [exact HCar|].
  apply (proj2 (proj2 (proj2 (proj2 (car_binding_is_set_once_but_writable Client.CT HCar))))
           2%positive
           (with_object (one_object "Engine") 2%positive
              (Object "Car" {[ "engine" := VObj 1%positive ]}))
           VNull 0); reflexivity.
Defined.

(** ** Calls on an instance of a known class *)

Lemma invoke_instance (CT : class_table) n l C name f args st :
  is_instance st l C = true -> no_own st l name = true ->
  lookup_method CT (size CT) C name = Some f ->
  invoke CT (S n) (VObj l) name args st = f (invoke CT n) l args st.
Proof.
  intros Hi Hn Hm. destruct (instance_inv _ _ _ _ Hi Hn) as (o & Ho & HC & Hf).
  apply invoke_method with (o := o); auto. now rewrite HC.
Qed.

(** A member that the class chain does not have cannot be called. *)
Lemma invoke_missing (CT : class_table) n l C name args st :
  is_instance st l C = true ->
  lookup_method CT (size CT) C name = None ->
  invoke CT n (VObj l) name args st = Throw TypeError st.
Proof.
  unfold is_instance. intros Hi Hm.
  destruct (heap st !! l) as [o|] eqn:Ho; [|discriminate].
  apply String.eqb_eq in Hi.
  destruct n; simpl; rewrite Ho; (destruct (fields o !! name); [reflexivity|]);
    now rewrite Hi, Hm.
Qed.

(** A thrown error skips whatever the caller was going to do next. *)
Lemma throw_skips_continuation {A B} (c : js A) (k : A -> js B) e st st' :
  c st = Throw e st' -> (x <- c ;; k x) st = Throw e st'.
Proof. unfold bind. now intros ->. Qed.

(** ** The wide [Animal] interface (interface segregation, violated) *)

(** C3, as the specification words it, fails: the call does not return a
    failure, typed or not.  It does not return at all; it throws, and
    what it throws is [new Error(message)], whose name is "Error": the
    source declares no error type of its own, and the two failures
    differ from each other and from any other [Error] by their message
    only. *)
Lemma unsupported_operation_is_thrown_not_returned :
  returned (invoke IspBad.CT 1 (VObj 1%positive) "swim" [] (one_object "Sparrow")) = None /\
  thrown (invoke IspBad.CT 1 (VObj 1%positive) "swim" [] (one_object "Sparrow"))
    = Some (Error "I can't swim, I can only fly!") /\
  error_name (Error "I can't swim, I can only fly!") = "Error" /\
  returned (invoke IspBad.CT 1 (VObj 1%positive) "fly" [] (one_object "Penguin")) = None /\
  thrown (invoke IspBad.CT 1 (VObj 1%positive) "fly" [] (one_object "Penguin"))
    = Some (Error "I can't fly, I can only swim!") /\
  error_name (Error "I can't fly, I can only swim!") = "Error" /\
  String.eqb "Error" "UnsupportedOperation" = false.
Proof. repeat split. Qed.

(** C3, amended.  A [Sparrow] asked to swim and a [Penguin] asked to fly
    throw the error object the method creates, a plain [Error] told apart
    by its message: the call returns nothing, prints nothing and changes
    nothing, it is not a TypeError (the member exists), no method catches
    the error, and the caller that goes on after the call never gets
    there: the same error, in the same state, is the completion of the
    caller. *)
Theorem unsupported_operation_throws_a_plain_Error :
  forall (st : state) (n : nat) (l : loc) (args : list value),
    (is_instance st l "Sparrow" = true -> no_own st l "swim" = true ->
     invoke IspBad.CT (S n) (VObj l) "swim" args st
       = Throw (Error "I can't swim, I can only fly!") st /\
     returned (invoke IspBad.CT (S n) (VObj l) "swim" args st) = None /\
     option_map error_name (thrown (invoke IspBad.CT (S n) (VObj l) "swim" args st))
       = Some "Error" /\
     forall (B : Type) (k : value -> js B),
       (x <- invoke IspBad.CT (S n) (VObj l) "swim" args ;; k x) st
       = Throw (Error "I can't swim, I can only fly!") st) /\
    (is_instance st l "Penguin" = true -> no_own st l "fly" = true ->
     invoke IspBad.CT (S n) (VObj l) "fly" args st
       = Throw (Error "I can't fly, I can only swim!") st /\
     returned (invoke IspBad.CT (S n) (VObj l) "fly" args st) = None /\
     option_map error_name (thrown (invoke IspBad.CT (S n) (VObj l) "fly" args st))
       = Some "Error" /\
     forall (B : Type) (k : value -> js B),
       (x <- invoke IspBad.CT (S n) (VObj l) "fly" args ;; k x) st
       = Throw (Error "I can't fly, I can only swim!") st).
Proof.
  intros st n l args. split; intros Hi Hn.
  - assert (H : invoke IspBad.CT (S n) (VObj l) "swim" args st
                = Throw (Error "I can't swim, I can only fly!") st).
    { now rewrite (invoke_instance _ n l "Sparrow" "swim" IspBad.Sparrow_swim). }
    rewrite H. split; [reflexivity|]. split; [reflexivity|]. split; [reflexivity|].
    intros B k. now apply throw_skips_continuation.
  - assert (H : invoke IspBad.CT (S n) (VObj l) "fly" args st
                = Throw (Error "I can't fly, I can only swim!") st).
    { now rewrite (invoke_instance _ n l "Penguin" "fly" IspBad.Penguin_fly). }
    rewrite H. split; [reflexivity|]. split; [reflexivity|]. split; [reflexivity|].
    intros B k. now apply throw_skips_continuation.
Qed.

Lemma unsupported_operation_witness :
  (is_instance (one_object "Sparrow") 1%positive "Sparrow" = true /\
   no_own (one_object "Sparrow") 1%positive "swim" = true /\
   invoke IspBad.CT 1 (VObj 1%positive) "swim" [] (one_object "Sparrow")
     = Throw (Error "I can't swim, I can only fly!") (one_object "Sparrow")) /\
  (is_instance (one_object "Penguin") 1%positive "Penguin" = true /\
   no_own (one_object "Penguin") 1%positive "fly" = true /\
   invoke IspBad.CT 1 (VObj 1%positive) "fly" [] (one_object "Penguin")
     = Throw (Error "I can't fly, I can only swim!") (one_object "Penguin")).
Proof.
  split; (split; [reflexivity|]; split; [reflexivity|]).
  - apply (proj1 (unsupported_operation_throws_a_plain_Error
                    (one_object "Sparrow") 0 1%positive [])); reflexivity.
  - apply (proj2 (unsupported_operation_throws_a_plain_Error
                    (one_object "Penguin") 0 1%positive [])); reflexivity.
Defined.

(** ** [Bird], [Sparrow], [Penguin] (Liskov substitution, applied) *)

(** What each bird writes when it is asked to fly. *)
Lemma bird_flies (C : string) st n l args :
  In C LspGood.birds ->
  is_instance st l C = true -> no_own st l "fly" = true ->
  exists line : string,
    invoke LspGood.CT (S n) (VObj l) "fly" args st = Normal VUndefined (logged st line).
Proof.
  intros HC Hi Hn. simpl in HC. destruct HC as [<- | [<- | []]].
  - exists "I can fly at a moderate speed".
    now rewrite (invoke_instance _ n l "Sparrow" "fly" LspGood.Sparrow_fly).
  - exists "I can't fly but I can swim".
    now rewrite (invoke_instance _ n l "Penguin" "fly" LspGood.Penguin_fly).
Qed.

(** C4. [Sparrow] and [Penguin] are the two classes presented as
    substitutable for [Bird].  On an object of either class [fly()]
    returns normally (it writes one line and returns [undefined]) in
    every state; so whichever of the two replaces the other, the call
    does not fail, and in particular it does not fail where the other
    did not. *)
Theorem substitutable_birds_never_fail_to_fly :
  forall (st : state) (n : nat) (p1 p2 : loc) (C1 C2 : string) (args : list value),
    In C1 LspGood.birds -> In C2 LspGood.birds ->
    is_instance st p1 C1 = true -> no_own st p1 "fly" = true ->
    is_instance st p2 C2 = true -> no_own st p2 "fly" = true ->
    completes (invoke LspGood.CT (S n) (VObj p1) "fly" args st) = true /\
    completes (invoke LspGood.CT (S n) (VObj p2) "fly" args st) = true /\
    returned (invoke LspGood.CT (S n) (VObj p1) "fly" args st)
      = returned (invoke LspGood.CT (S n) (VObj p2) "fly" args st) /\
    heap_unchanged st (invoke LspGood.CT (S n) (VObj p2) "fly" args st) /\
    (throws (invoke LspGood.CT (S n) (VObj p2) "fly" args st) = true ->
     throws (invoke LspGood.CT (S n) (VObj p1) "fly" args st) = true).
Proof.
  intros st n p1 p2 C1 C2 args H1 H2 Hi1 Hn1 Hi2 Hn2.
  destruct (bird_flies C1 st n p1 args H1 Hi1 Hn1) as [line1 ->].
  destruct (bird_flies C2 st n p2 args H2 Hi2 Hn2) as [line2 ->].
  simpl. repeat split; auto.
Qed.

Lemma substitutable_birds_witness :
  invoke LspGood.CT 1 (VObj 1%positive) "fly" []
    (with_object (one_object "Sparrow") 2%positive (Object "Penguin" ∅))
  = Normal VUndefined
      (logged (with_object (one_object "Sparrow") 2%positive (Object "Penguin" ∅))
              "I can fly at a moderate speed") /\
  completes (invoke LspGood.CT 1 (VObj 2%positive) "fly" []
               (with_object (one_object "Sparrow") 2%positive (Object "Penguin" ∅)))
  = true.
Proof.
  split; [reflexivity|].
  apply (substitutable_birds_never_fail_to_fly
           (with_object (one_object "Sparrow") 2%positive (Object "Penguin" ∅))
           0 1%positive 2%positive "Sparrow" "Penguin" []);
    solve [reflexivity | simpl; auto].
Defined.

(** The contrast of the violated snippet: a [Car] drives, a [Boat] put
    in its place throws. *)
Lemma boat_is_not_substitutable st n l args :
  (is_instance st l "Car" = true -> no_own st l "drive" = true ->
   invoke LspBad.CT (S n) (VObj l) "drive" args st
     = Normal VUndefined (logged st "Driving on the road")) /\
  (is_instance st l "Boat" = true -> no_own st l "drive" = true ->
   invoke LspBad.CT (S n) (VObj l) "drive" args st
     = Throw (Error "I can't drive, I can only float!") st).
Proof.
  split; intros Hi Hn.
  - now rewrite (invoke_instance _ n l "Car" "drive" LspBad.Car_drive).
  - now rewrite (invoke_instance _ n l "Boat" "drive" LspBad.Boat_drive).
Qed.

(** ** The three narrow interfaces (interface segregation, applied) *)

(** C8. [Sparrow] declares the members of [Flyable] and [Runnable] and
    nothing else, [Penguin] those of [Swimmable] and [Runnable] and
    nothing else, and neither class extends another.  So, of the
    operations of the three capabilities, a call on a [Sparrow] finds
    [fly] and [run] and not [swim], and a call on a [Penguin] finds
    [swim] and [run] and not [fly]: the missing member is not found at
    any depth and calling it is a TypeError, while the members the class
    does declare can be called.  (What every object inherits from the
    language itself, [toString] and the like, is no operation of a
    capability and is not looked at.) *)
Theorem narrow_classes_expose_only_their_interfaces :
  (map fst (methods IspGood.Sparrow) = ["fly"; "run"] /\
   map fst (methods IspGood.Sparrow) = concat IspGood.Sparrow_implements /\
   extends IspGood.Sparrow = None) /\
  (map fst (methods IspGood.Penguin) = ["swim"; "run"] /\
   map fst (methods IspGood.Penguin) = concat IspGood.Penguin_implements /\
   extends IspGood.Penguin = None) /\
  (forall name : string,
     In name (IspGood.Flyable ++ IspGood.Swimmable ++ IspGood.Runnable)%list ->
     is_Some (lookup_method IspGood.CT (size IspGood.CT) "Sparrow" name)
     <-> In name (concat IspGood.Sparrow_implements)) /\
  (forall name : string,
     In name (IspGood.Flyable ++ IspGood.Swimmable ++ IspGood.Runnable)%list ->
     is_Some (lookup_method IspGood.CT (size IspGood.CT) "Penguin" name)
     <-> In name (concat IspGood.Penguin_implements)) /\
  (forall d : nat, lookup_method IspGood.CT d "Sparrow" "swim" = None) /\
  (forall d : nat, lookup_method IspGood.CT d "Penguin" "fly" = None) /\
  (forall (st : state) (n : nat) (l : loc) (args : list value),
     is_instance st l "Sparrow" = true ->
     invoke IspGood.CT n (VObj l) "swim" args st = Throw TypeError st /\
     (no_own st l "fly" = true ->
      completes (invoke IspGood.CT (S n) (VObj l) "fly" args st) = true) /\
     (no_own st l "run" = true ->
      completes (invoke IspGood.CT (S n) (VObj l) "run" args st) = true)) /\
  (forall (st : state) (n : nat) (l : loc) (args : list value),
     is_instance st l "Penguin" = true ->
     invoke IspGood.CT n (VObj l) "fly" args st = Throw TypeError st /\
     (no_own st l "swim" = true ->
      completes (invoke IspGood.CT (S n) (VObj l) "swim" args st) = true) /\
     (no_own st l "run" = true ->
      completes (invoke IspGood.CT (S n) (VObj l) "run" args st) = true)).
Proof.
  split; [repeat split|]. split; [repeat split|].
  split; [|split].
  - intros name Hin.
    assert (Hfly : lookup_method IspGood.CT (size IspGood.CT) "Sparrow" "fly"
                   = Some IspGood.Sparrow_fly) by reflexivity.
    assert (Hrun : lookup_method IspGood.CT (size IspGood.CT) "Sparrow" "run"
                   = Some IspGood.Sparrow_run) by reflexivity.
    assert (Hswim : lookup_method IspGood.CT (size IspGood.CT) "Sparrow" "swim" = None)
      by reflexivity.
    change (In name ["fly"; "swim"; "run"]) in Hin.
    change (concat IspGood.Sparrow_implements) with ["fly"; "run"].
    destruct Hin as [<- | [<- | [<- | []]]].
    + rewrite Hfly. split; [intros _; left; reflexivity | intros _; now eexists].
    + rewrite Hswim. split; [intros [f Hf]; discriminate Hf|].
      intros [H | [H | []]]; discriminate H.
    + rewrite Hrun. split; [intros _; right; left; reflexivity | intros _; now eexists].
  - intros name Hin.
    assert (Hswim : lookup_method IspGood.CT (size IspGood.CT) "Penguin" "swim"
                    = Some IspGood.Penguin_swim) by reflexivity.
    assert (Hrun : lookup_method IspGood.CT (size IspGood.CT) "Penguin" "run"
                   = Some IspGood.Penguin_run) by reflexivity.
    assert (Hfly : lookup_method IspGood.CT (size IspGood.CT) "Penguin" "fly" = None)
      by reflexivity.
    change (In name ["fly"; "swim"; "run"]) in Hin.
    change (concat IspGood.Penguin_implements) with ["swim"; "run"].
    destruct Hin as [<- | [<- | [<- | []]]].
    + rewrite Hfly. split; [intros [f Hf]; discriminate Hf|].
      intros [H | [H | []]]; discriminate H.
    + rewrite Hswim. split; [intros _; left; reflexivity | intros _; now eexists].
    + rewrite Hrun. split; [intros _; right; left; reflexivity | intros _; now eexists].
  - split; [now intros [|[|d]]|]. split; [now intros [|[|d]]|].
    split; intros st n l args Hi.
    + split; [now apply invoke_missing with (C := "Sparrow")|].
      split; intros Hn.
      * now rewrite (invoke_instance _ n l "Sparrow" "fly" IspGood.Sparrow_fly).
      * now rewrite (invoke_instance _ n l "Sparrow" "run" IspGood.Sparrow_run).
    + split; [now apply invoke_missing with (C := "Penguin")|].
      split; intros Hn.
      * now rewrite (invoke_instance _ n l "Penguin" "swim" IspGood.Penguin_swim).
      * now rewrite (invoke_instance _ n l "Penguin" "run" IspGood.Penguin_run).
Qed.

Lemma narrow_classes_witness :
  invoke IspGood.CT 1 (VObj 1%positive) "swim" [] (one_object "Sparrow")
    = Throw TypeError (one_object "Sparrow") /\
  invoke IspGood.CT 1 (VObj 1%positive) "fly" [] (one_object "Penguin")
    = Throw TypeError (one_object "Penguin").
Proof.
  pose proof narrow_classes_expose_only_their_interfaces
    as (_ & _ & _ & _ & _ & _ & HS & HP).
  split.
  - apply (HS (one_object "Sparrow") 1 1%positive []). reflexivity.
  - apply (HP (one_object "Penguin") 1 1%positive []). reflexivity.
Defined.

(** ** [Shape], [Rectangle], [Circle] (open-closed, applied) *)

(** [area()] of an object that has the class [Rectangle] and the two
    fields the constructor means to set. *)
Lemma Rectangle_area_runs host (w h : value) st l n args :
  invoke (OcpGood.CT host) (S n) (VObj l) "area" args
    (with_object st l (Object "Rectangle" {[ "width" := w; "height" := h ]}))
  = Normal (mul host w h)
      (with_object st l (Object "Rectangle" {[ "width" := w; "height" := h ]})).
Proof.
  rewrite (invoke_instance _ n l "Rectangle" "area" (OcpGood.Rectangle_area host)).
  - unfold OcpGood.Rectangle_area, bind, get_field, with_object. simpl.
    rewrite lookup_insert_eq. simpl. now rewrite lookup_insert_eq.
  - unfold is_instance, with_object. simpl. now rewrite lookup_insert_eq.
  - unfold no_own, with_object. simpl. now rewrite lookup_insert_eq.
  - reflexivity.
Qed.

(** [area()] of an object that has the class [Circle] and the field
    [radius]. *)
Lemma Circle_area_runs host (r : value) st l n args :
  invoke (OcpGood.CT host) (S n) (VObj l) "area" args
    (with_object st l (Object "Circle" {[ "radius" := r ]}))
  = Normal (VNum (Math_PI * exponentiate host (ToNumber host r) 2))
      (with_object st l (Object "Circle" {[ "radius" := r ]})).
Proof.
  rewrite (invoke_instance _ n l "Circle" "area" (OcpGood.Circle_area host)).
  - unfold OcpGood.Circle_area, bind, get_field, with_object. simpl.
    now rewrite lookup_insert_eq.
  - unfold is_instance, with_object. simpl. now rewrite lookup_insert_eq.
  - unfold no_own, with_object. simpl. now rewrite lookup_insert_eq.
  - reflexivity.
Qed.

(** C5. [Rectangle] extends [Shape], and its constructor assigns to
    [this.width] without having called [super()]: [new Rectangle(4, 5)]
    throws a ReferenceError at the first statement of the constructor, in
    every state and on every engine, and so does [new Rectangle] with any
    other arguments; no rectangle exists whose [area()] could be asked
    for.  The method itself is what the specification expects: on an
    object that does have width 4 and height 5 it returns 20. *)
Theorem Rectangle_constructor_throws :
  (forall (host : Host) (st : state),
     new (OcpGood.CT host) "Rectangle" [VNum 4; VNum 5] st = Throw ReferenceError st) /\
  (forall (host : Host) (args : list value) (st : state),
     new (OcpGood.CT host) "Rectangle" args st = Throw ReferenceError st) /\
  (forall (host : Host) (st : state) (l : loc) (n : nat),
     invoke (OcpGood.CT host) (S n) (VObj l) "area" []
       (with_object st l (Object "Rectangle" {[ "width" := VNum 4; "height" := VNum 5 ]}))
     = Normal (VNum 20)
         (with_object st l (Object "Rectangle" {[ "width" := VNum 4; "height" := VNum 5 ]}))).
Proof.
  split; [reflexivity|]. split; [reflexivity|].
  intros host st l n. now rewrite Rectangle_area_runs.
Qed.

(** C6. [Circle] has the same defect as [Rectangle]: its constructor
    assigns to [this.radius] without having called [super()], so
    [new Circle(2)] throws a ReferenceError and no area is computed.  On
    an object that does have radius 2 the method returns [Math.PI] times
    the engine's value of [2 ** 2]; where that value is 4 the result is
    the float 0x1.921fb54442d18p+3 (12.566370614359172 in decimal), within
    a thousandth of 12.566. *)
Theorem Circle_constructor_throws :
  (forall (host : Host) (st : state),
     new (OcpGood.CT host) "Circle" [VNum 2] st = Throw ReferenceError st) /\
  (forall (host : Host) (args : list value) (st : state),
     new (OcpGood.CT host) "Circle" args st = Throw ReferenceError st) /\
  (forall (host : Host) (st : state) (l : loc) (n : nat),
     invoke (OcpGood.CT host) (S n) (VObj l) "area" []
       (with_object st l (Object "Circle" {[ "radius" := VNum 2 ]}))
     = Normal (VNum (Math_PI * pow_approx host 2 2))
         (with_object st l (Object "Circle" {[ "radius" := VNum 2 ]}))) /\
  (Math_PI * 4)%float = 0x1.921fb54442d18p+3%float /\
  (abs (Math_PI * 4 - 12566 / 1000) <? (1 / 1000))%float = true.
Proof.
  split; [reflexivity|]. split; [reflexivity|]. split; [|split; reflexivity].
  intros host st l n. now rewrite Circle_area_runs.
Qed.

(** ** [ShapeCalculator] (open-closed, violated) *)

(** The three branches of [calculateArea], on any calculator in any
    state. *)
Lemma calculateArea_runs host (shape w h : value) st n c :
  is_instance st c "ShapeCalculator" = true -> no_own st c "calculateArea" = true ->
  invoke (OcpBad.CT host) (S n) (VObj c) "calculateArea" [shape; w; h] st
  = Normal (if strict_equal shape (VStr "rectangle") then mul host w h
            else if strict_equal shape (VStr "circle")
                 then VNum (Math_PI * exponentiate host (ToNumber host w / 2) 2)
                 else VUndefined) st.
Proof.
  intros Hi Hn.
  rewrite (invoke_instance _ n c "ShapeCalculator" "calculateArea" (OcpBad.calculateArea host));
    auto.
  unfold OcpBad.calculateArea, arg. cbn [nth].
  destruct (strict_equal shape (VStr "rectangle")); [reflexivity|].
  destruct (strict_equal shape (VStr "circle")); reflexivity.
Qed.

Lemma calculateArea_of_runs host (shape w h : value) :
  calculateArea_of host shape w h
  = invoke (OcpBad.CT host) 1 (VObj 1%positive) "calculateArea" [shape; w; h]
      (one_object "ShapeCalculator").
Proof. reflexivity. Qed.

(** Any first argument that is [===] to neither string ends in the same
    place, a number or [undefined] for instance. *)
Lemma calculateArea_falls_through host (shape w h : value) st n c :
  strict_equal shape (VStr "rectangle") = false ->
  strict_equal shape (VStr "circle") = false ->
  is_instance st c "ShapeCalculator" = true -> no_own st c "calculateArea" = true ->
  invoke (OcpBad.CT host) (S n) (VObj c) "calculateArea" [shape; w; h] st
  = Normal VUndefined st.
Proof. intros Hr Hc Hi Hn. rewrite calculateArea_runs by assumption. now rewrite Hr, Hc. Qed.

(** C9. For a shape string other than "rectangle" and "circle",
    [calculateArea] falls off the end of the [if]: it returns
    [undefined], whatever the width and the height are, without throwing
    and without touching the state. *)
Theorem calculateArea_of_unknown_shape_is_undefined :
  forall (host : Host) (s : string) (width height : value)
         (st : state) (n : nat) (c : loc),
    s <> "rectangle" -> s <> "circle" ->
    is_instance st c "ShapeCalculator" = true -> no_own st c "calculateArea" = true ->
    invoke (OcpBad.CT host) (S n) (VObj c) "calculateArea" [VStr s; width; height] st
    = Normal VUndefined st.
Proof.
  intros host s width height st n c Hr Hc Hi Hn.
  rewrite calculateArea_runs by assumption. simpl.
  apply String.eqb_neq in Hr, Hc. now rewrite Hr, Hc.
Qed.

Lemma calculateArea_of_unknown_shape_witness :
  "triangle" <> "rectangle" /\ "triangle" <> "circle" /\
  invoke (OcpBad.CT sample_host) 1 (VObj 1%positive) "calculateArea"
    [VStr "triangle"; VNum 4; VNum 5] (one_object "ShapeCalculator")
  = Normal VUndefined (one_object "ShapeCalculator").
Proof.
  split; [discriminate|]. split; [discriminate|].
  apply (calculateArea_of_unknown_shape_is_undefined sample_host "triangle"
           (VNum 4) (VNum 5) (one_object "ShapeCalculator") 0 1%positive);
    solve [discriminate | reflexivity].
Defined.

(** C10, as the specification words it, fails: the two circle areas also
    agree at the input [Infinity], which is not 0 (both are
    [Infinity]), on every engine and for every height. *)
Lemma circle_areas_agree_at_infinity :
  (infinity =? 0)%float = false /\
  (forall (host : Host) (h : value),
     calculateArea_of host (VStr "circle") (VNum infinity) h
       = Normal (VNum infinity) (one_object "ShapeCalculator") /\
     returned (Circle_area_of host (VNum infinity)) = Some (VNum infinity) /\
     agree (calculateArea_of host (VStr "circle") (VNum infinity) h)
           (Circle_area_of host (VNum infinity)) = true).
Proof.
  split; [reflexivity|]. intros host h. repeat split.
Qed.

(** ** Binary64 rounding

    What the two circle formulas compute is decided by how binary64
    multiplication and division round.  The facts below are proved from
    the specification of the primitive floats ([SpecFloat]): [Prim2SF x]
    is the sign, mantissa and exponent of [x], and a product is the exact
    product of the mantissas rounded by [binary_round_aux]. *)

Section Binary64.
Local Open Scope Z_scope.

(** *** Mantissas and their number of bits *)

Lemma digits2_pos_lower (p : positive) : 2 ^ Z.pos (digits2_pos p) <= 2 * Z.pos p.
Proof.
  induction p as [p IH | p IH |]; cbn [digits2_pos];
    rewrite ?Pos2Z.inj_succ, ?Z.pow_succ_r by lia; [lia | lia | reflexivity].
Qed.

Lemma digits2_pos_upper (p : positive) : Z.pos p < 2 ^ Z.pos (digits2_pos p).
Proof.
  induction p as [p IH | p IH |]; cbn [digits2_pos];
    rewrite ?Pos2Z.inj_succ, ?Z.pow_succ_r by lia; [lia | lia | reflexivity].
Qed.

(** A mantissa of at least [2^(n-1)] has at least [n] bits, and one
    below [2^n] has at most [n]. *)
Lemma digits2_pos_ge (p : positive) (n : Z) :
  0 <= n -> 2 ^ n <= 2 * Z.pos p -> n <= Z.pos (digits2_pos p).
Proof.
  intros Hn Hp. pose proof (digits2_pos_upper p) as Hu.
  destruct (Z.le_gt_cases n (Z.pos (digits2_pos p))) as [H | H]; [exact H|].
  assert (2 ^ (Z.pos (digits2_pos p) + 1) <= 2 ^ n) by (apply Z.pow_le_mono_r; lia).
  rewrite Z.pow_add_r in H0 by lia. change (2 ^ 1) with 2 in H0. lia.
Qed.

Lemma digits2_pos_le (p : positive) (n : Z) :
  0 <= n -> Z.pos p < 2 ^ n -> Z.pos (digits2_pos p) <= n.
Proof.
  intros Hn Hp. pose proof (digits2_pos_lower p) as Hl.
  destruct (Z.le_gt_cases (Z.pos (digits2_pos p)) n) as [H | H]; [exact H|].
  assert (2 ^ (n + 1) <= 2 ^ Z.pos (digits2_pos p)) by (apply Z.pow_le_mono_r; lia).
  rewrite Z.pow_add_r in H0 by lia. change (2 ^ 1) with 2 in H0. lia.
Qed.

(** A valid finite float has a mantissa of at most 53 bits, and of
    exactly 53 bits above the lowest binade. *)
Lemma mantissa_digits (x : float) s m e :
  Prim2SF x = S754_finite s m e ->
  Z.pos (digits2_pos m) <= 53 /\ -1074 <= e <= 971 /\
  (-1073 <= e -> digits2_pos m = 53%positive).
Proof.
  intros Hx. pose proof (Prim2SF_valid x) as Hv. rewrite Hx in Hv.
  unfold SpecFloat.valid_binary, bounded, canonical_mantissa, fexp, SpecFloat.emin in Hv.
  apply andb_prop in Hv. destruct Hv as [Hc Hb].
  change prec with 53 in *. change emax with 1024 in *.
  apply Z.eqb_eq in Hc. apply Z.leb_le in Hb.
  split; [lia|]. split; [lia|]. intros He.
  assert (Z.pos (digits2_pos m) = 53) by lia. congruence.
Qed.

Lemma normal_digits (x : float) s m e :
  Prim2SF x = S754_finite s m e -> -1073 <= e ->
  digits2_pos m = 53%positive /\ e <= 971.
Proof.
  intros Hx He. destruct (mantissa_digits x s m e Hx) as (_ & Hb & Hd).
  split; [now apply Hd | lia].
Qed.

(** *** Shifting a mantissa to the right *)

Lemma shr_snd_nonneg mrs n : 0 <= snd (shr mrs 0 n).
Proof. unfold shr. destruct n; simpl; lia. Qed.

Lemma shr_snd_ge mrs n : n <= snd (shr mrs 0 n).
Proof. unfold shr. destruct n; simpl; lia. Qed.

Lemma shr_m_of_loc (m : Z) (l : location) : shr_m (shr_record_of_loc m l) = m.
Proof. destruct l as [|[]]; reflexivity. Qed.

(** One shift to the right halves the mantissa, rounding down. *)
Lemma shr_1_bounds (mrs : shr_record) :
  0 <= shr_m mrs ->
  0 <= shr_m (shr_1 mrs) /\
  2 * shr_m (shr_1 mrs) <= shr_m mrs < 2 * shr_m (shr_1 mrs) + 2.
Proof. destruct mrs as [[|[p|p|]|[p|p|]] r s]; simpl; lia. Qed.

Lemma iter_shr_1_bounds (p : positive) :
  forall mrs : shr_record, 0 <= shr_m mrs ->
    0 <= shr_m (SpecFloat.iter_pos shr_1 p mrs) /\
    2 ^ Z.pos p * shr_m (SpecFloat.iter_pos shr_1 p mrs) <= shr_m mrs
      < 2 ^ Z.pos p * (shr_m (SpecFloat.iter_pos shr_1 p mrs) + 1).
Proof.
  induction p as [p IH | p IH |]; intros mrs Hm; cbn [SpecFloat.iter_pos].
  - destruct (shr_1_bounds mrs Hm) as [H0 H1].
    destruct (IH _ H0) as [H2 H3]. destruct (IH _ H2) as [H4 H5].
    split; [exact H4|].
    replace (Z.pos p~1) with (Z.pos p + Z.pos p + 1) by lia.
    rewrite !Z.pow_add_r by lia. change (2 ^ 1) with 2.
    assert (HP : 0 < 2 ^ Z.pos p) by (apply Z.pow_pos_nonneg; lia).
    nia.
  - destruct (IH _ Hm) as [H2 H3]. destruct (IH _ H2) as [H4 H5].
    split; [exact H4|].
    replace (Z.pos p~0) with (Z.pos p + Z.pos p) by lia.
    rewrite !Z.pow_add_r by lia.
    assert (HP : 0 < 2 ^ Z.pos p) by (apply Z.pow_pos_nonneg; lia).
    nia.
  - change (2 ^ 1) with 2. pose proof (shr_1_bounds mrs Hm). lia.
Qed.

(** Shifting a mantissa of at least 53 bits down to 53 bits leaves at
    least [2^52]. *)
Lemma shr_to_53 (p : positive) (l : location) :
  53 <= Zdigits2 (Z.pos p) ->
  2 ^ 52 <= shr_m (fst (shr (shr_record_of_loc (Z.pos p) l) 0 (Zdigits2 (Z.pos p) - 53))).
Proof.
  cbn [Zdigits2]. intros H53. unfold shr.
  pose proof (digits2_pos_lower p) as Hd.
  assert (E52 : 2 ^ 52 = 4503599627370496) by reflexivity.
  assert (E53 : 2 ^ 53 = 9007199254740992) by reflexivity.
  destruct (Z.pos (digits2_pos p) - 53) as [|k|k] eqn:Hk; cbn [fst]; [|clear E52|lia].
  - rewrite shr_m_of_loc.
    replace (Z.pos (digits2_pos p)) with 53 in Hd by lia. lia.
  - destruct (iter_shr_1_bounds k (shr_record_of_loc (Z.pos p) l)) as [H0 H1];
      [rewrite shr_m_of_loc; lia|].
    rewrite shr_m_of_loc in H1.
    replace (Z.pos (digits2_pos p)) with (53 + Z.pos k) in Hd by lia.
    rewrite Z.pow_add_r in Hd by lia.
    assert (HP : 0 < 2 ^ Z.pos k) by (apply Z.pow_pos_nonneg; lia).
    change (2 ^ 52) with 4503599627370496. nia.
Qed.

Lemma round_nearest_even_ge (m : Z) (l : location) : m <= round_nearest_even m l.
Proof. destruct l as [|[]]; simpl; try lia. destruct (Z.even m); lia. Qed.

(** *** Rounding away from the subnormal range *)

(** Where the result is a normal number, the mantissa is cut to 53
    bits. *)
Lemma shr_fexp_normal (m E : Z) (l : location) :
  -1021 <= Zdigits2 m + E ->
  shr_fexp prec emax m E l
  = (fst (shr (shr_record_of_loc m l) 0 (Zdigits2 m - 53)),
     E + snd (shr (shr_record_of_loc m l) 0 (Zdigits2 m - 53))).
Proof.
  intros HE. unfold shr_fexp, fexp, SpecFloat.emin.
  change prec with 53. change emax with 1024.
  replace (Z.max (Zdigits2 m + E - 53) (3 - 1024 - 53) - E) with (Zdigits2 m - 53) by lia.
  unfold shr. destruct (Zdigits2 m - 53); simpl; f_equal; lia.
Qed.

(** So there the rounding of a mantissa does not depend on the exponent,
    which is only carried along: the result is a mantissa [F] of 53 bits
    at the exponent raised by [k]. *)
Lemma rounding_is_uniform (M : positive) (l : location) :
  53 <= Zdigits2 (Z.pos M) ->
  exists (F : positive) (k : Z),
    Zdigits2 (Z.pos M) - 53 <= k /\ 2 ^ 52 <= Z.pos F /\
    forall (s : bool) (E : Z), -1021 <= Zdigits2 (Z.pos M) + E ->
      binary_round_aux prec emax s (Z.pos M) E l
      = if E + k <=? 971 then S754_finite s F (E + k) else S754_infinity s.
Proof.
  intros HM.
  set (r1 := shr (shr_record_of_loc (Z.pos M) l) 0 (Zdigits2 (Z.pos M) - 53)).
  set (m1 := round_nearest_even (shr_m (fst r1)) (loc_of_shr_record (fst r1))).
  set (r2 := shr (shr_record_of_loc m1 loc_Exact) 0 (Zdigits2 m1 - 53)).
  assert (E52 : 2 ^ 52 = 4503599627370496) by reflexivity.
  assert (H1 : 2 ^ 52 <= m1).
  { pose proof (shr_to_53 M l HM) as H. fold r1 in H.
    pose proof (round_nearest_even_ge (shr_m (fst r1)) (loc_of_shr_record (fst r1))) as H'.
    fold m1 in H'. lia. }
  destruct m1 as [|p1|p1] eqn:Hm1; try lia.
  assert (Hd1 : 53 <= Zdigits2 (Z.pos p1)).
  { cbn [Zdigits2]. apply digits2_pos_ge; [lia|].
    change (2 ^ 53) with (2 * 2 ^ 52). lia. }
  assert (H2 : 2 ^ 52 <= shr_m (fst r2)) by (subst r2; now apply shr_to_53).
  destruct (shr_m (fst r2)) as [|F|F] eqn:HF; try lia.
  exists F, (snd r1 + snd r2).
  pose proof (shr_snd_ge (shr_record_of_loc (Z.pos M) l) (Zdigits2 (Z.pos M) - 53)) as Hg1.
  pose proof (shr_snd_nonneg (shr_record_of_loc (Z.pos p1) loc_Exact)
                (Zdigits2 (Z.pos p1) - 53)) as Hn2.
  fold r1 in Hg1. fold r2 in Hn2.
  split; [lia|]. split; [exact H2|].
  intros s E HE. unfold binary_round_aux.
  rewrite (shr_fexp_normal (Z.pos M) E l HE). fold r1. cbv zeta.
  cbn [fst snd]. fold m1. rewrite Hm1.
  rewrite (shr_fexp_normal (Z.pos p1) (E + snd r1) loc_Exact) by lia.
  fold r2. cbn [fst snd]. rewrite HF. change (emax - prec) with 971.
  now rewrite Z.add_assoc.
Qed.

(** *** Exact scalings *)

Lemma digits2_pos_shifted (m : positive) :
  digits2_pos m = 53%positive ->
  digits2_pos (m~0~0~0~0~0~0~0~0~0~0~0~0~0~0~0~0~0~0~0~0~0~0~0~0~0~0~0~0~0~0~0~0~0~0~0~0~0~0~0~0~0~0~0~0~0~0~0~0~0~0~0~0)
  = 105%positive.
Proof. intros H. cbn [digits2_pos]. rewrite H. reflexivity. Qed.

(** Multiplying a normal number by 4 adds 2 to its exponent. *)
Lemma four_times (a : float) s m e :
  Prim2SF a = S754_finite s m e -> -1073 <= e ->
  Prim2SF (4 * a)%float
  = if e + 2 <=? 971 then S754_finite s m (e + 2) else S754_infinity s.
Proof.
  intros Ha He. destruct (normal_digits a s m e Ha) as [Hd _]; [lia|].
  rewrite FloatAxioms.mul_spec, Ha.
  change (Prim2SF 4) with (S754_finite false 4503599627370496 (-50)).
  unfold SF64mul, SFmul. cbn [xorb].
  change (Pos.mul 4503599627370496 m)
    with (m~0~0~0~0~0~0~0~0~0~0~0~0~0~0~0~0~0~0~0~0~0~0~0~0~0~0~0~0~0~0~0~0~0~0~0~0~0~0~0~0~0~0~0~0~0~0~0~0~0~0~0~0)%positive.
  unfold binary_round_aux, shr_fexp, fexp, SpecFloat.emin.
  change prec with 53. change emax with 1024.
  cbn [Zdigits2]. rewrite (digits2_pos_shifted m Hd).
  replace (Z.max (105 + (-50 + e) - 53) (3 - 1024 - 53) - (-50 + e)) with 52 by lia.
  cbv [shr SpecFloat.iter_pos shr_1 shr_record_of_loc orb fst snd shr_m loc_of_shr_record
       round_nearest_even].
  cbn [Zdigits2]. rewrite Hd.
  replace (Z.max (53 + (-50 + e + 52) - 53) (3 - 1024 - 53) - (-50 + e + 52)) with 0 by lia.
  replace (-50 + e + 52) with (e + 2) by lia. reflexivity.
Qed.

Lemma div_eucl_shift (m : positive) :
  Z.div_eucl (Z.shiftl (Z.pos m) 53) 4503599627370496 = (Z.pos m~0, 0).
Proof.
  rewrite Z.shiftl_mul_pow2 by lia.
  replace (Z.pos m * 2 ^ 53) with (Z.pos m~0 * 4503599627370496) by lia.
  pose proof (Z.div_mul (Z.pos m~0) 4503599627370496 ltac:(lia)) as Hq.
  pose proof (Z.mod_mul (Z.pos m~0) 4503599627370496 ltac:(lia)) as Hm.
  unfold Z.div, Z.modulo in Hq, Hm.
  destruct (Z.div_eucl (Z.pos m~0 * 4503599627370496) 4503599627370496) as [q r0].
  now subst.
Qed.

(** Halving a normal number whose half is normal too subtracts 1 from
    its exponent. *)
Lemma halving_is_exact (r : float) s m e :
  Prim2SF r = S754_finite s m e -> -1021 <= e ->
  Prim2SF (r / 2)%float = S754_finite s m (e - 1).
Proof.
  intros Hr He. destruct (normal_digits r s m e Hr) as [Hd Hb]; [lia|].
  rewrite FloatAxioms.div_spec, Hr.
  change (Prim2SF 2) with (S754_finite false 4503599627370496 (-51)).
  unfold SF64div, SFdiv, SFdiv_core_binary, fexp, SpecFloat.emin.
  change prec with 53. change emax with 1024.
  cbn [Zdigits2]. rewrite Hd. change (digits2_pos 4503599627370496) with 53%positive.
  replace (Z.min (Z.max (53 + e - (53 + -51) - 53) (3 - 1024 - 53)) (e - -51))
    with (e - 2) by lia.
  replace (e - -51 - (e - 2)) with 53 by lia.
  cbv iota. rewrite div_eucl_shift.
  cbv [new_location new_location_even Z.even Z.eqb].
  rewrite xorb_false_r.
  unfold binary_round_aux, shr_fexp, fexp, SpecFloat.emin.
  cbn [Zdigits2]. change (digits2_pos m~0) with (Pos.succ (digits2_pos m)).
  rewrite Hd. change (Pos.succ 53) with 54%positive.
  replace (Z.max (54 + (e - 2) - 53) (3 - 1024 - 53) - (e - 2)) with 1 by lia.
  cbv [shr SpecFloat.iter_pos shr_1 shr_record_of_loc orb fst snd shr_m loc_of_shr_record
       round_nearest_even].
  cbn [Zdigits2]. rewrite Hd.
  replace (Z.max (53 + (e - 2 + 1) - 53) (3 - 1024 - 53) - (e - 2 + 1)) with 0 by lia.
  replace (e - 2 + 1) with (e - 1) by lia.
  replace (e - 1 <=? 1024 - 53) with true by (symmetry; apply Z.leb_le; lia).
  reflexivity.
Qed.

(** *** The two circle areas *)

(** The product of two mantissas of at least [2^52] has at least 105
    bits. *)
Lemma product_digits (a b : positive) :
  2 ^ 52 <= Z.pos a -> 2 ^ 52 <= Z.pos b -> 105 <= Zdigits2 (Z.pos (a * b)).
Proof.
  intros Ha Hb. cbn [Zdigits2]. apply digits2_pos_ge; [lia|].
  change (2 ^ 52) with 4503599627370496 in *.
  change (2 ^ 105) with 40564819207303340847894502572032.
  rewrite Pos2Z.inj_mul. nia.
Qed.

(** [r * r] and [(r / 2) * (r / 2)] have the same mantissa, two
    exponents apart, as long as the smaller one is a normal number. *)
Lemma square_of_half (r : float) s m e :
  Prim2SF r = S754_finite s m e -> -562 <= e ->
  exists (F : positive) (k : Z),
    52 <= k /\ 2 ^ 52 <= Z.pos F /\
    Prim2SF (r * r)%float
    = (if 2 * e + k <=? 971 then S754_finite false F (2 * e + k) else S754_infinity false) /\
    Prim2SF ((r / 2) * (r / 2))%float
    = (if 2 * e - 2 + k <=? 971 then S754_finite false F (2 * e - 2 + k)
       else S754_infinity false).
Proof.
  intros Hr He.
  destruct (normal_digits r s m e Hr) as [Hd _]; [lia|].
  assert (Hm : 2 ^ 52 <= Z.pos m).
  { pose proof (digits2_pos_lower m) as Hl. rewrite Hd in Hl.
    change (2 ^ 53) with (2 * 2 ^ 52) in Hl. lia. }
  pose proof (product_digits m m Hm Hm) as HD.
  destruct (rounding_is_uniform (m * m) loc_Exact) as (F & k & Hk & HF & Hround); [lia|].
  exists F, k. split; [lia|]. split; [exact HF|].
  rewrite !FloatAxioms.mul_spec, (halving_is_exact r s m e Hr) by lia. rewrite Hr.
  unfold SF64mul, SFmul. rewrite xorb_nilpotent.
  split.
  - rewrite (Hround false (e + e)) by lia. replace (e + e) with (2 * e) by lia. reflexivity.
  - rewrite (Hround false (e - 1 + (e - 1))) by lia.
    replace (e - 1 + (e - 1) + k) with (2 * e - 2 + k) by lia. reflexivity.
Qed.

(** From [2^-510 <= |r|]: [r] is infinite, or finite with a large enough
    exponent. *)
Lemma large_enough (r : float) :
  (0x1p-510 <=? abs r)%float = true ->
  (exists s, Prim2SF r = S754_infinity s) \/
  (exists s m e, Prim2SF r = S754_finite s m e /\ -562 <= e).
Proof.
  rewrite FloatAxioms.leb_spec, FloatAxioms.abs_spec.
  change (Prim2SF 0x1p-510) with (S754_finite false 4503599627370496 (-562)).
  destruct (Prim2SF r) as [s| s| |s m e]; try discriminate.
  - intros _. left. now exists s.
  - intros H. right. exists s, m, e. split; [reflexivity|].
    unfold SFleb, SFcompare, SFabs in H.
    destruct (Z.compare_spec (-562) e); first [lia | discriminate].
Qed.

Lemma pi_times (F : positive) :
  2 ^ 52 <= Z.pos F ->
  exists (G : positive) (j : Z), 52 <= j /\
    forall E : Z, -1075 <= E ->
      SF64mul (Prim2SF Math_PI) (S754_finite false F E)
      = if E - 51 + j <=? 971 then S754_finite false G (E - 51 + j)
        else S754_infinity false.
Proof.
  intros HF.
  assert (HD : 105 <= Zdigits2 (Z.pos (7074237752028440 * F))).
  { apply product_digits; [|exact HF]. change (2 ^ 52) with 4503599627370496. lia. }
  destruct (rounding_is_uniform (7074237752028440 * F) loc_Exact) as (G & j & Hj & _ & HG);
    [lia|].
  exists G, j. split; [lia|]. intros E HE.
  change (Prim2SF Math_PI) with (S754_finite false 7074237752028440 (-51)).
  unfold SF64mul, SFmul. cbn [xorb]. rewrite HG by lia.
  replace (-51 + E + j) with (E - 51 + j) by lia. reflexivity.
Qed.

(** The two areas as binary64 values, for [2^-510 <= |r|]: the same
    mantissa two exponents apart, unless one or both overflowed. *)
Lemma circle_areas_shape (r : float) :
  (0x1p-510 <=? abs r)%float = true ->
  (Prim2SF (Math_PI * ((r / 2) * (r / 2))) = S754_infinity false /\
   Prim2SF (Math_PI * (r * r)) = S754_infinity false) \/
  (exists (G : positive) (x : Z), -1073 <= x <= 971 /\
     Prim2SF (Math_PI * ((r / 2) * (r / 2))) = S754_finite false G x /\
     Prim2SF (Math_PI * (r * r))
     = if x + 2 <=? 971 then S754_finite false G (x + 2) else S754_infinity false).
Proof.
  intros H. destruct (large_enough r H) as [[s Hr] | (s & m & e & Hr & He)].
  - left. rewrite !FloatAxioms.mul_spec, !FloatAxioms.div_spec, Hr.
    destruct s; split; reflexivity.
  - destruct (square_of_half r s m e Hr) as (F & k & Hk & HF & HQ & Hq); [lia|].
    rewrite (FloatAxioms.mul_spec Math_PI (r * r)),
            (FloatAxioms.mul_spec Math_PI (r / 2 * (r / 2))), HQ, Hq.
    destruct (Z.leb_spec (2 * e - 2 + k) 971) as [L1|L1];
      [|left; destruct (Z.leb_spec (2 * e + k) 971); [lia|split; reflexivity]].
    destruct (pi_times F HF) as (G & j & Hj & HG).
    rewrite (HG (2 * e - 2 + k)) by lia.
    destruct (Z.leb_spec (2 * e - 2 + k - 51 + j) 971) as [L3|L3].
    + right. exists G, (2 * e - 2 + k - 51 + j). split; [lia|]. split; [reflexivity|].
      destruct (Z.leb_spec (2 * e + k) 971) as [L2|L2].
      * rewrite (HG (2 * e + k)) by lia.
        replace (2 * e + k - 51 + j) with (2 * e - 2 + k - 51 + j + 2) by lia.
        reflexivity.
      * destruct (Z.leb_spec (2 * e - 2 + k - 51 + j + 2) 971); [lia|reflexivity].
    + left. split; [reflexivity|].
      destruct (Z.leb_spec (2 * e + k) 971) as [L2|L2]; [|reflexivity].
      rewrite (HG (2 * e + k)) by lia.
      destruct (Z.leb_spec (2 * e + k - 51 + j) 971); [lia|reflexivity].
Qed.

(** For [2^-510 <= |r|], [Math.PI * (r * r)] is exactly four times
    [Math.PI * ((r / 2) * (r / 2))], which is not 0: the two are equal
    only as [Infinity]. *)
Lemma circle_areas_float (r : float) :
  (0x1p-510 <=? abs r)%float = true ->
  (Math_PI * (r * r) = 4 * (Math_PI * ((r / 2) * (r / 2))))%float /\
  (0 <? Math_PI * ((r / 2) * (r / 2)))%float = true /\
  (Math_PI * ((r / 2) * (r / 2)) =? Math_PI * (r * r))%float
  = (Math_PI * ((r / 2) * (r / 2)) =? infinity)%float /\
  ((Math_PI * (r * r) <? infinity)%float = true ->
   (Math_PI * ((r / 2) * (r / 2)) =? Math_PI * (r * r))%float = false).
Proof.
  intros H.
  destruct (circle_areas_shape r H) as [[HA HC] | (G & x & Hx & HA & HC)].
  - split; [|split; [|split]].
    + apply Prim2SF_inj. rewrite (FloatAxioms.mul_spec 4), HA, HC. reflexivity.
    + rewrite FloatAxioms.ltb_spec, HA. reflexivity.
    + rewrite !FloatAxioms.eqb_spec, HA, HC. reflexivity.
    + rewrite FloatAxioms.ltb_spec, HC. discriminate.
  - split; [|split; [|split]].
    + apply Prim2SF_inj.
      rewrite (four_times _ false G x HA) by lia. exact HC.
    + rewrite FloatAxioms.ltb_spec, HA. reflexivity.
    + rewrite !FloatAxioms.eqb_spec, HA, HC.
      change (Prim2SF infinity) with (S754_infinity false).
      destruct (Z.leb_spec (x + 2) 971); [|reflexivity].
      unfold SFeqb, SFcompare. destruct (Z.compare_spec x (x + 2)); first [lia | reflexivity].
    + intros _. rewrite !FloatAxioms.eqb_spec, HA, HC.
      destruct (Z.leb_spec (x + 2) 971); [|reflexivity].
      unfold SFeqb, SFcompare. destruct (Z.compare_spec x (x + 2)); first [lia | reflexivity].
Qed.

(** *** Rounding to zero *)

Lemma iter_pos_eq {A : Type} (f : A -> A) (p : positive) :
  forall x : A, SpecFloat.iter_pos f p x = Pos.iter f x p.
Proof.
  induction p as [p IH | p IH |]; intros x; cbn [SpecFloat.iter_pos Pos.iter].
  - now rewrite !IH, !Pos.iter_swap.
  - now rewrite !IH.
  - reflexivity.
Qed.

Lemma shr_m_le mrs E n :
  0 <= shr_m mrs -> 0 <= shr_m (fst (shr mrs E n)) <= shr_m mrs.
Proof.
  intros H. unfold shr. destruct n as [|p|p]; cbn [fst]; try lia.
  destruct (iter_shr_1_bounds p mrs H) as [H0 H1].
  assert (HP : 0 < 2 ^ Z.pos p) by (apply Z.pow_pos_nonneg; lia).
  nia.
Qed.

Lemma shr_snd mrs E n : snd (shr mrs E n) = E + Z.max 0 n.
Proof. unfold shr. destruct n; cbn [snd]; lia. Qed.

(** Shifted by more bits than it has, a mantissa leaves 0, and the bit
    shifted out last is 0 as well. *)
Lemma shr_far (mrs : shr_record) (p : positive) :
  0 <= shr_m mrs < 2 ^ (Z.pos p - 1) ->
  shr_m (SpecFloat.iter_pos shr_1 p mrs) = 0 /\
  shr_r (SpecFloat.iter_pos shr_1 p mrs) = false.
Proof.
  intros H. destruct (Pos.succ_pred_or p) as [-> | Hs].
  - change (2 ^ (1 - 1)) with 1 in H. cbn [SpecFloat.iter_pos].
    destruct mrs as [m r s]. cbn [shr_m] in H.
    assert (m = 0) by lia. subst m. split; reflexivity.
  - pose proof (Pos2Z.inj_succ (Pos.pred p)) as Hp. rewrite Hs in Hp.
    rewrite <- Hs, iter_pos_eq, Pos.iter_succ, <- iter_pos_eq.
    destruct (iter_shr_1_bounds (Pos.pred p) mrs) as [H0 H1]; [lia|].
    replace (Z.pos p - 1) with (Z.pos (Pos.pred p)) in H by lia.
    assert (HP : 0 < 2 ^ Z.pos (Pos.pred p)) by (apply Z.pow_pos_nonneg; lia).
    assert (Hy : shr_m (SpecFloat.iter_pos shr_1 (Pos.pred p) mrs) = 0) by nia.
    destruct (SpecFloat.iter_pos shr_1 (Pos.pred p) mrs) as [m r s].
    cbn [shr_m] in Hy. subst m. split; reflexivity.
Qed.

(** A product below [2^-1075] is rounded to zero. *)
Lemma rounds_to_zero (s : bool) (M : positive) (E : Z) (l : location) :
  Zdigits2 (Z.pos M) + E <= -1075 ->
  binary_round_aux prec emax s (Z.pos M) E l = S754_zero s.
Proof.
  cbn [Zdigits2]. intros H.
  unfold binary_round_aux, shr_fexp, fexp, SpecFloat.emin.
  change prec with 53. change emax with 1024. cbn [Zdigits2].
  replace (Z.max (Z.pos (digits2_pos M) + E - 53) (3 - 1024 - 53) - E) with (-1074 - E)
    by lia.
  destruct (-1074 - E) as [|p|p] eqn:Hn; try lia.
  unfold shr at 1.
  destruct (shr_far (shr_record_of_loc (Z.pos M) l) p) as [Hm0 Hr0].
  { rewrite shr_m_of_loc. split; [lia|].
    pose proof (digits2_pos_upper M) as Hu.
    assert (2 ^ Z.pos (digits2_pos M) <= 2 ^ (Z.pos p - 1)) by (apply Z.pow_le_mono_r; lia).
    lia. }
  destruct (SpecFloat.iter_pos shr_1 p (shr_record_of_loc (Z.pos M) l)) as [m r s0].
  cbn [shr_m shr_r] in Hm0, Hr0. subst m r.
  replace (E + Z.pos p) with (-1074) by lia.
  now destruct s0.
Qed.

(** The square of a number below [2^-539] is 0. *)
Lemma square_tiny (x : float) s m e :
  Prim2SF x = S754_finite s m e -> e <= -592 ->
  Prim2SF (x * x)%float = S754_zero false.
Proof.
  intros Hx He. destruct (mantissa_digits x s m e Hx) as (Hd & _ & _).
  rewrite FloatAxioms.mul_spec, Hx. unfold SF64mul, SFmul. rewrite xorb_nilpotent.
  apply rounds_to_zero. cbn [Zdigits2].
  assert (Hm : Z.pos m < 2 ^ 53).
  { pose proof (digits2_pos_upper m) as Hu.
    assert (2 ^ Z.pos (digits2_pos m) <= 2 ^ 53) by (apply Z.pow_le_mono_r; lia).
    lia. }
  assert (Z.pos (digits2_pos (m * m)) <= 106); [|lia].
  apply digits2_pos_le; [lia|].
  change (2 ^ 53) with 9007199254740992 in Hm.
  change (2 ^ 106) with 81129638414606681695789005144064.
  rewrite Pos2Z.inj_mul. nia.
Qed.

(** *** A bound on the exponent of a rounded result *)

Lemma Zdigits2_le (M D : Z) : 0 <= M < 2 ^ D -> 0 <= D -> 0 <= Zdigits2 M <= D.
Proof.
  intros [H0 H1] HD. destruct M as [|p|p]; cbn [Zdigits2]; try lia.
  split; [lia|]. now apply digits2_pos_le.
Qed.

Lemma round_nearest_even_le (m : Z) (l : location) : round_nearest_even m l <= m + 1.
Proof. destruct l as [|[]]; simpl; try lia. destruct (Z.even m); lia. Qed.

Lemma round_exponent_bound (s : bool) (M E : Z) (l : location) (D : Z) :
  0 <= M < 2 ^ D -> 0 <= D -> Z.max E (-1074) + 2 * D <= 971 ->
  binary_round_aux prec emax s M E l = S754_zero s \/
  exists (m' : positive) (e' : Z),
    binary_round_aux prec emax s M E l = S754_finite s m' e' /\
    e' <= Z.max E (-1074) + 2 * D.
Proof.
  intros HM HD HB. unfold binary_round_aux, shr_fexp.
  pose proof (Zdigits2_le M D HM HD) as Hd.
  set (n1 := fexp prec emax (Zdigits2 M + E) - E).
  pose proof (shr_m_le (shr_record_of_loc M l) E n1) as Hm1.
  pose proof (shr_snd (shr_record_of_loc M l) E n1) as He1.
  rewrite shr_m_of_loc in Hm1.
  destruct (shr (shr_record_of_loc M l) E n1) as [mrs' e'].
  cbn [fst snd] in Hm1, He1.
  pose proof (round_nearest_even_ge (shr_m mrs') (loc_of_shr_record mrs')) as Hr1.
  pose proof (round_nearest_even_le (shr_m mrs') (loc_of_shr_record mrs')) as Hr2.
  set (m1 := round_nearest_even (shr_m mrs') (loc_of_shr_record mrs')) in *.
  assert (Hd1 : 0 <= Zdigits2 m1 <= D + 1).
  { apply Zdigits2_le; [|lia]. rewrite Z.pow_add_r by lia. change (2 ^ 1) with 2. lia. }
  set (n2 := fexp prec emax (Zdigits2 m1 + e') - e').
  pose proof (shr_m_le (shr_record_of_loc m1 loc_Exact) e' n2) as Hm2.
  pose proof (shr_snd (shr_record_of_loc m1 loc_Exact) e' n2) as He2.
  rewrite shr_m_of_loc in Hm2.
  destruct (shr (shr_record_of_loc m1 loc_Exact) e' n2) as [mrs'' e''].
  cbn [fst snd] in Hm2, He2.
  assert (Hb : e'' <= Z.max E (-1074) + 2 * D).
  { subst n1 n2. unfold fexp, SpecFloat.emin in He1, He2.
    change prec with 53 in *. change emax with 1024 in *. lia. }
  change (emax - prec) with 971.
  destruct (shr_m mrs'') as [|p|p]; [now left| |lia].
  right. exists p, e''. split; [|exact Hb].
  replace (e'' <=? 971) with true by (symmetry; apply Z.leb_le; lia). reflexivity.
Qed.

(** Half of a number below [2^-539] is 0 or below [2^-539] again (it is
    the exact half when that is a normal number). *)
Lemma halving_tiny (r : float) s m e :
  Prim2SF r = S754_finite s m e -> e <= -592 ->
  Prim2SF (r / 2)%float = S754_zero s \/
  exists (m' : positive) (e' : Z),
    Prim2SF (r / 2)%float = S754_finite s m' e' /\ e' <= -592.
Proof.
  intros Hr He. destruct (Z_le_gt_dec (-1021) e) as [Hn | Hsub].
  - right. exists m, (e - 1). split; [now apply halving_is_exact | lia].
  - destruct (mantissa_digits r s m e Hr) as (Hd & Hb & _).
    rewrite FloatAxioms.div_spec, Hr.
    change (Prim2SF 2) with (S754_finite false 4503599627370496 (-51)).
    unfold SF64div, SFdiv, SFdiv_core_binary. rewrite xorb_false_r.
    set (ez := Z.min (fexp prec emax
                        (Zdigits2 (Z.pos m) + e - (Zdigits2 4503599627370496 + -51)))
                     (e - -51)).
    assert (Hez : -1074 <= ez <= e + 51).
    { subst ez. unfold fexp, SpecFloat.emin.
      change prec with 53. change emax with 1024. lia. }
    set (m0 := match e - -51 - ez with
               | 0 => Z.pos m
               | Z.pos _ => Z.shiftl (Z.pos m) (e - -51 - ez)
               | Z.neg _ => 0
               end).
    assert (Hm : Z.pos m < 2 ^ 53).
    { pose proof (digits2_pos_upper m) as Hu.
      assert (2 ^ Z.pos (digits2_pos m) <= 2 ^ 53) by (apply Z.pow_le_mono_r; lia).
      lia. }
    assert (Hm0 : 0 <= m0 < 2 ^ 156).
    { assert (H156 : 2 ^ 53 * 2 ^ 103 = 2 ^ 156) by reflexivity.
      assert (H103 : 0 < 2 ^ 103) by reflexivity.
      subst m0. destruct (e - -51 - ez) as [|k|k] eqn:Hk.
      - rewrite <- H156. nia.
      - rewrite Z.shiftl_mul_pow2 by lia.
        assert (0 < 2 ^ Z.pos k) by (apply Z.pow_pos_nonneg; lia).
        assert (2 ^ Z.pos k <= 2 ^ 103) by (apply Z.pow_le_mono_r; lia).
        rewrite <- H156. nia.
      - rewrite <- H156. nia. }
    pose proof (Z_div_mod m0 4503599627370496 eq_refl) as Hdiv.
    destruct (Z.div_eucl m0 4503599627370496) as [q r0].
    assert (Hq : 0 <= q < 2 ^ 156) by nia.
    destruct (round_exponent_bound s q ez (new_location 4503599627370496 r0) 156 Hq)
      as [Hz | (m' & e' & Hf & Hb')]; [lia | lia | now left |].
    right. exists m', e'. split; [exact Hf | lia].
Qed.

(** From [|r| <= 2^-540]: [r] is a zero, or finite with a small
    exponent. *)
Lemma tiny_enough (r : float) :
  (abs r <=? 0x1p-540)%float = true ->
  (exists s, Prim2SF r = S754_zero s) \/
  (exists s m e, Prim2SF r = S754_finite s m e /\ e <= -592).
Proof.
  rewrite FloatAxioms.leb_spec, FloatAxioms.abs_spec.
  change (Prim2SF 0x1p-540) with (S754_finite false 4503599627370496 (-592)).
  destruct (Prim2SF r) as [s| s| |s m e]; try discriminate.
  - intros _. left. now exists s.
  - intros H. right. exists s, m, e. split; [reflexivity|].
    unfold SFleb, SFcompare, SFabs in H.
    destruct (Z.compare_spec e (-592)); first [lia | discriminate].
Qed.

Lemma pi_times_zero (x : float) :
  Prim2SF x = S754_zero false -> (Math_PI * x)%float = 0%float.
Proof.
  intros Hx. apply Prim2SF_inj. rewrite FloatAxioms.mul_spec, Hx. reflexivity.
Qed.

(** For [|r| <= 2^-540] both squares are 0, and so are both areas. *)
Lemma circle_areas_tiny (r : float) :
  (abs r <=? 0x1p-540)%float = true ->
  (Math_PI * ((r / 2) * (r / 2)))%float = 0%float /\
  (Math_PI * (r * r))%float = 0%float.
Proof.
  intros H. destruct (tiny_enough r H) as [[s Hr] | (s & m & e & Hr & He)].
  - split; apply pi_times_zero.
    + rewrite !FloatAxioms.mul_spec, !FloatAxioms.div_spec, Hr. now destruct s.
    + rewrite !FloatAxioms.mul_spec, Hr. now destruct s.
  - split; apply pi_times_zero.
    + destruct (halving_tiny r s m e Hr He) as [Hz | (m' & e' & Hf & He')].
      * rewrite FloatAxioms.mul_spec, Hz. now destruct s.
      * now apply (square_tiny _ s m' e').
    + now apply (square_tiny _ s m e).
Qed.

End Binary64.

(** ** Squares

    With the exponent 2, [base ** exponent] takes one of three paths of
    Number::exponentiate: NaN for a NaN base, the exact value for a zero
    or an infinite base, and the engine's approximation otherwise. *)
Lemma exponentiate_2 (host : Host) (x : float) :
  exponentiate host x 2
  = if is_nan x then nan
    else match classify x with
         | PInf | NInf => infinity
         | PZero | NZero => 0%float
         | _ => pow_approx host x 2
         end.
Proof.
  unfold exponentiate.
  change (is_nan 2) with false. change (is_zero 2) with false.
  change (0 <? 2)%float with true. change (is_odd_integral 2) with false.
  change (is_integral 2) with true. change (classify 2) with PNormal.
  cbn [negb]. rewrite andb_false_r.
  destruct (is_nan x), (classify x); reflexivity.
Qed.

(** On an engine whose [x ** 2] is the correctly rounded square, which
    is what one multiplication gives, [x ** 2] is [x * x] for every
    Number. *)
Lemma exponentiate_square (host : Host) :
  (forall x : float, pow_approx host x 2 = (x * x)%float) ->
  forall x : float, exponentiate host x 2 = (x * x)%float.
Proof.
  intros Hsq x. rewrite exponentiate_2, Hsq.
  unfold is_nan. rewrite FloatAxioms.eqb_spec, FloatAxioms.classify_spec.
  destruct (Prim2SF x) as [s | s | | s m e] eqn:Hx.
  - assert (Hz : (x * x)%float = 0%float).
    { apply Prim2SF_inj. rewrite FloatAxioms.mul_spec, Hx. now destruct s. }
    rewrite Hz. now destruct s.
  - assert (Hi : (x * x)%float = infinity).
    { apply Prim2SF_inj. rewrite FloatAxioms.mul_spec, Hx. now destruct s. }
    rewrite Hi. now destruct s.
  - simpl. apply Prim2SF_inj. now rewrite FloatAxioms.mul_spec, Hx.
  - assert (He : SFeqb (S754_finite s m e) (S754_finite s m e) = true).
    { unfold SFeqb, SFcompare. rewrite Z.compare_refl, Pos.compare_cont_refl.
      now destruct s. }
    rewrite He. cbn [negb]. unfold SF64classify, SFclassify.
    destruct s; destruct (Z.pos (digits2_pos m) =? prec)%Z; reflexivity.
Qed.

(** C10, amended.  [calculateArea("circle", w, h)] returns
    [Math.PI * (w / 2) ** 2] for every width that is a primitive
    ([undefined], [null], a boolean, a Number or a string) and for every
    height: the width, converted to a Number, is halved as a diameter and
    the height is not looked at.  [Circle]'s [area()] returns
    [Math.PI * r ** 2].

    For the same Number [r] the two agree at 0 and -0 and at [Infinity]
    and [-Infinity], and differ at NaN, on every engine.  On an engine
    whose [x ** 2] is the correctly rounded square:
    - for every [r] of magnitude at least 2^-510, [Circle]'s area is
      exactly four times the area of [calculateArea], which is not 0; so
      the two agree exactly when the smaller one has overflowed to
      [Infinity] (as at 2^513 and 2^600, not yet at 2^512), and differ
      whenever [Circle]'s area is finite, as at 1 and at 2;
    - for every [r] of magnitude at most 2^-540 both squares underflow
      and both areas are 0, so the two agree (as at 2^-600);
    - in between, where the squares are subnormal numbers, the two still
      differ at 2^-537 and agree, both being 0, at 2^-538. *)
Theorem calculateArea_circle_reads_width_as_diameter :
  forall host : Host,
    (forall w h : value,
       plain w = true ->
       (forall (st : state) (n : nat) (c : loc),
          is_instance st c "ShapeCalculator" = true ->
          no_own st c "calculateArea" = true ->
          invoke (OcpBad.CT host) (S n) (VObj c) "calculateArea" [VStr "circle"; w; h] st
          = Normal (VNum (Math_PI * exponentiate host (ToNumber host w / 2) 2)) st) /\
       calculateArea_of host (VStr "circle") w h
         = calculateArea_of host (VStr "circle") w VUndefined /\
       returned (calculateArea_of host (VStr "circle") w h)
         = Some (VNum (Math_PI * exponentiate host (ToNumber host w / 2) 2)) /\
       returned (Circle_area_of host w)
         = Some (VNum (Math_PI * exponentiate host (ToNumber host w) 2))) /\
    (forall (r : float) (h : value),
       In r [0; -0; infinity; neg_infinity]%float ->
       agree (calculateArea_of host (VStr "circle") (VNum r) h)
             (Circle_area_of host (VNum r)) = true) /\
    (forall h : value,
       agree (calculateArea_of host (VStr "circle") (VNum nan) h)
             (Circle_area_of host (VNum nan)) = false) /\
    ((forall x : float, pow_approx host x 2 = (x * x)%float) ->
     forall (r : float) (h : value),
       returned (calculateArea_of host (VStr "circle") (VNum r) h)
         = Some (VNum (Math_PI * (r / 2 * (r / 2)))) /\
       returned (Circle_area_of host (VNum r)) = Some (VNum (Math_PI * (r * r))) /\
       ((0x1p-510 <=? abs r)%float = true ->
        (Math_PI * (r * r) = 4 * (Math_PI * (r / 2 * (r / 2))))%float /\
        (0 <? Math_PI * (r / 2 * (r / 2)))%float = true /\
        agree (calculateArea_of host (VStr "circle") (VNum r) h)
              (Circle_area_of host (VNum r))
          = (Math_PI * (r / 2 * (r / 2)) =? infinity)%float /\
        ((Math_PI * (r * r) <? infinity)%float = true ->
         agree (calculateArea_of host (VStr "circle") (VNum r) h)
               (Circle_area_of host (VNum r)) = false)) /\
       ((abs r <=? 0x1p-540)%float = true ->
        (Math_PI * (r / 2 * (r / 2)))%float = 0%float /\
        (Math_PI * (r * r))%float = 0%float /\
        agree (calculateArea_of host (VStr "circle") (VNum r) h)
              (Circle_area_of host (VNum r)) = true) /\
       (In r [0x1p-600; 0x1p-538; 0x1p+513; 0x1p+600]%float ->
        agree (calculateArea_of host (VStr "circle") (VNum r) h)
              (Circle_area_of host (VNum r)) = true) /\
       (In r [0x1p-537; 1; 2; 0x1p+512]%float ->
        agree (calculateArea_of host (VStr "circle") (VNum r) h)
              (Circle_area_of host (VNum r)) = false)).
Proof.
  intros host. split; [|split; [|split]].
  - intros w h _.
    split; [intros st n c Hi Hn; now rewrite calculateArea_runs|].
    split; [reflexivity|]. split; reflexivity.
  - intros r h Hr. simpl in Hr.
    destruct Hr as [<- | [<- | [<- | [<- | []]]]]; reflexivity.
  - intros h. reflexivity.
  - intros Hsq r h.
    assert (Hc : calculateArea_of host (VStr "circle") (VNum r) h
                 = Normal (VNum (Math_PI * (r / 2 * (r / 2)))) (one_object "ShapeCalculator")).
    { assert (H0 : calculateArea_of host (VStr "circle") (VNum r) h
                   = Normal (VNum (Math_PI * exponentiate host (r / 2) 2))
                       (one_object "ShapeCalculator")) by reflexivity.
      now rewrite H0, (exponentiate_square host Hsq). }
    assert (Ha : Circle_area_of host (VNum r)
                 = Normal (VNum (Math_PI * (r * r)))
                     (with_object initial 1%positive
                        (Object "Circle" {[ "radius" := VNum r ]}))).
    { assert (H0 : Circle_area_of host (VNum r)
                   = Normal (VNum (Math_PI * exponentiate host r 2))
                       (with_object initial 1%positive
                          (Object "Circle" {[ "radius" := VNum r ]}))) by reflexivity.
      now rewrite H0, (exponentiate_square host Hsq). }
    rewrite Hc, Ha. cbn [returned agree strict_equal].
    split; [reflexivity|]. split; [reflexivity|]. split; [|split; [|split]].
    + intros Hbig. destruct (circle_areas_float r Hbig) as (H4 & Hpos & Heq & Hfin).
      split; [exact H4|]. split; [exact Hpos|]. split; [exact Heq | exact Hfin].
    + intros Htiny. destruct (circle_areas_tiny r Htiny) as [HA0 HC0].
      split; [exact HA0|]. split; [exact HC0|]. now rewrite HA0, HC0.
    + intros Hin. simpl in Hin.
      destruct Hin as [<- | [<- | [<- | [<- | []]]]]; reflexivity.
    + intros Hin. simpl in Hin.
      destruct Hin as [<- | [<- | [<- | [<- | []]]]]; reflexivity.
Qed.

Lemma calculateArea_circle_witness :
  plain (VNum 3) = true /\
  (forall x : float, pow_approx sample_host x 2 = (x * x)%float) /\
  (0x1p-510 <=? abs 3)%float = true /\
  (Math_PI * (3 * 3) <? infinity)%float = true /\
  returned (calculateArea_of sample_host (VStr "circle") (VNum 3) (VNum 7))
    = Some (VNum (Math_PI * exponentiate sample_host (3 / 2) 2)) /\
  agree (calculateArea_of sample_host (VStr "circle") (VNum 3) (VNum 7))
        (Circle_area_of sample_host (VNum 3)) = false.
Proof.
  assert (Hsq : forall x : float, pow_approx sample_host x 2 = (x * x)%float)
    by (intros x; reflexivity).
  split; [reflexivity|]. split; [exact Hsq|].
  split; [reflexivity|]. split; [reflexivity|].
  destruct (calculateArea_circle_reads_width_as_diameter sample_host) as (HA & _ & _ & HC).
  split.
  - apply (HA (VNum 3) (VNum 7)). reflexivity.
  - destruct (HC Hsq 3%float (VNum 7)) as (_ & _ & Hbig & _ & _ & _).
    assert (Hb : (0x1p-510 <=? abs 3)%float = true) by reflexivity.
    destruct (Hbig Hb) as (_ & _ & _ & Hfin). apply Hfin. reflexivity.
Defined.

(** ** Objects made by [new]

    The statements above take any object of the right class; the objects
    that [new] makes are among them. *)

Lemma after_new_is_instance st C fs :
  is_instance (after_new st C fs) (fresh (dom (heap st))) C = true.
Proof.
  unfold is_instance, after_new, with_object. simpl.
  rewrite lookup_insert_eq. simpl. apply String.eqb_refl.
Qed.

Lemma after_new_no_own st C name :
  no_own (after_new st C ∅) (fresh (dom (heap st))) name = true.
Proof.
  unfold no_own, after_new, with_object. simpl.
  rewrite lookup_insert_eq. simpl. now rewrite lookup_empty.
Qed.

(** [new] of the classes that have no constructor of their own: one
    empty object of the class named after [new], also when the class
    extends another. *)
Lemma new_without_constructor args st :
  new DipGood.CT "Engine" args st
    = Normal (VObj (fresh (dom (heap st)))) (after_new st "Engine" ∅) /\
  new LspGood.CT "Sparrow" args st
    = Normal (VObj (fresh (dom (heap st)))) (after_new st "Sparrow" ∅) /\
  new LspGood.CT "Penguin" args st
    = Normal (VObj (fresh (dom (heap st)))) (after_new st "Penguin" ∅) /\
  new LspBad.CT "Boat" args st
    = Normal (VObj (fresh (dom (heap st)))) (after_new st "Boat" ∅) /\
  new IspGood.CT "Sparrow" args st
    = Normal (VObj (fresh (dom (heap st)))) (after_new st "Sparrow" ∅) /\
  new IspGood.CT "Penguin" args st
    = Normal (VObj (fresh (dom (heap st)))) (after_new st "Penguin" ∅) /\
  new IspBad.CT "Sparrow" args st
    = Normal (VObj (fresh (dom (heap st)))) (after_new st "Sparrow" ∅) /\
  new IspBad.CT "Penguin" args st
    = Normal (VObj (fresh (dom (heap st)))) (after_new st "Penguin" ∅) /\
  forall host : Host,
    new (OcpBad.CT host) "ShapeCalculator" args st
      = Normal (VObj (fresh (dom (heap st)))) (after_new st "ShapeCalculator" ∅).
Proof. repeat split. Qed.

(** The whole run [new Car(new Engine()).start()] from the empty state:
    one line on the console. *)
Example car_with_engine_starts :
  (e <- new DipGood.CT "Engine" [] ;;
   c <- new DipGood.CT "Car" [e] ;;
   invoke DipGood.CT 2 c "start" []) initial
  = Normal VUndefined
      {| heap := {[ 1%positive := Object "Engine" ∅;
                    2%positive := Object "Car" {[ "engine" := VObj 1%positive ]} ]};
         console := ["Engine started"] |}.
Proof. vm_compute. reflexivity. Qed.

(* ================================================================== *)
(** * Part 3: further properties of the source                          *)
(* ================================================================== *)

(** ** Facts about binary64 arithmetic *)

Lemma float_add_nan_l (x : float) : (nan + x)%float = nan.
Proof. apply Prim2SF_inj. rewrite add_spec. reflexivity. Qed.

Lemma float_sub_nan_l (x : float) : (nan - x)%float = nan.
Proof. apply Prim2SF_inj. rewrite sub_spec. reflexivity. Qed.

Lemma float_mul_nan_r (x : float) : (x * nan)%float = nan.
Proof.
  apply Prim2SF_inj. rewrite mul_spec.
  change (Prim2SF nan) with S754_nan. now destruct (Prim2SF x).
Qed.

Lemma float_sub_zero_r (x : float) : (x - 0)%float = x.
Proof.
  apply Prim2SF_inj. rewrite sub_spec.
  change (Prim2SF 0) with (S754_zero false).
  now destruct (Prim2SF x) as [[|]| | |].
Qed.

Lemma float_mul_comm (x y : float) : (x * y)%float = (y * x)%float.
Proof.
  apply Prim2SF_inj. rewrite !mul_spec.
  destruct (Prim2SF x) as [sx|sx| |sx mx ex], (Prim2SF y) as [sy|sy| |sy my ey];
    simpl; try reflexivity; try (now rewrite xorb_comm).
  unfold SF64mul, SFmul. now rewrite xorb_comm, Pos.mul_comm, Z.add_comm.
Qed.

(** ** [BankAccount] (single responsibility) *)

Lemma own_lookup st l o name :
  heap st !! l = Some o -> own st l name = fields o !! name.
Proof. unfold own. now intros ->. Qed.

Lemma no_own_lookup st l o name :
  heap st !! l = Some o -> no_own st l name = true -> fields o !! name = None.
Proof. unfold no_own. intros ->. now destruct (fields o !! name). Qed.

(** Writing one field changes that field of that object only. *)
Lemma with_field_only st l o name v :
  heap st !! l = Some o ->
  only_field_changed st
    (with_object st l (Object (class_of o) (<[name := v]> (fields o)))) l name.
Proof.
  intros Hl. unfold only_field_changed, with_object. simpl.
  split; [reflexivity|]. split; [|split].
  - intros l' Hne. now rewrite lookup_insert_ne.
  - intros C. unfold is_instance. simpl. now rewrite lookup_insert_eq, Hl.
  - intros name' Hne. unfold own. simpl. rewrite lookup_insert_eq, Hl. simpl.
    now rewrite lookup_insert_ne.
Qed.

Lemma only_field_changed_refl st l name : only_field_changed st st l name.
Proof. now repeat split. Qed.

Lemma only_field_changed_trans st1 st2 st3 l name :
  only_field_changed st1 st2 l name -> only_field_changed st2 st3 l name ->
  only_field_changed st1 st3 l name.
Proof.
  intros (Hc1 & Ho1 & Hi1 & Hf1) (Hc2 & Ho2 & Hi2 & Hf2).
  split; [congruence|]. split; [|split].
  - intros l' Hne. now rewrite Ho2, Ho1.
  - intros C. now rewrite Hi2, Hi1.
  - intros name' Hne. now rewrite Hf2, Hf1.
Qed.

(** [no_own] is about one field; a change of another field keeps it. *)
Lemma only_field_changed_no_own st st' l name name' :
  only_field_changed st st' l name -> name' <> name ->
  is_instance st l "BankAccount" = true ->
  no_own st l name' = true -> no_own st' l name' = true.
Proof.
  intros (_ & _ & Hi & Hf) Hne Hinst Hn.
  specialize (Hi "BankAccount"). rewrite Hinst in Hi.
  specialize (Hf name' Hne). unfold is_instance, no_own, own in *.
  destruct (heap st' !! l) as [o'|]; [|discriminate].
  destruct (heap st !! l) as [o|]; [|discriminate]. simpl in Hf.
  rewrite Hf. exact Hn.
Qed.

Section BankAccountFacts.
Context (host : Host) (NumberToString : float -> string).

(** One transaction on an account: the new balance is computed from the
    old one and written back; nothing is returned. *)
Lemma perform_runs st a o n t :
  heap st !! a = Some o -> class_of o = "BankAccount" ->
  fields o !! "deposit" = None -> fields o !! "withdraw" = None ->
  perform (SrpGood.CT host NumberToString) (S n) (VObj a) t st
  = Normal VUndefined
      (with_object st a
         (Object (class_of o)
            (<["balance" := after_transaction host NumberToString (balance_of st a) t]>
               (fields o)))).
Proof.
  intros Hl HC Hd Hw. unfold balance_of. rewrite (own_lookup _ _ _ _ Hl).
  destruct t as [x | x]; unfold perform.
  - rewrite (invoke_method _ n a o "deposit" (SrpGood.deposit host NumberToString)); auto.
    + unfold SrpGood.deposit, bind, get_field, set_field. rewrite Hl. simpl. now rewrite Hl.
    + now rewrite HC.
  - rewrite (invoke_method _ n a o "withdraw" (SrpGood.withdraw host)); auto.
    + unfold SrpGood.withdraw, bind, get_field, set_field. rewrite Hl. simpl. now rewrite Hl.
    + now rewrite HC.
Qed.

(** The same on the observations [is_instance], [no_own], [balance_of]. *)
Lemma perform_step st a n t :
  is_instance st a "BankAccount" = true ->
  no_own st a "deposit" = true -> no_own st a "withdraw" = true ->
  exists st' : state,
    perform (SrpGood.CT host NumberToString) (S n) (VObj a) t st = Normal VUndefined st' /\
    only_field_changed st st' a "balance" /\
    balance_of st' a = after_transaction host NumberToString (balance_of st a) t.
Proof.
  intros Hi Hd Hw.
  destruct (instance_inv _ _ _ _ Hi Hd) as (o & Hl & HC & Hfd).
  pose proof (no_own_lookup _ _ _ _ Hl Hw) as Hfw.
  exists (with_object st a
            (Object (class_of o)
               (<["balance" := after_transaction host NumberToString (balance_of st a) t]>
                  (fields o)))).
  split; [now apply perform_runs|]. split.
  - now apply with_field_only.
  - unfold balance_of at 1, own, with_object. simpl.
    rewrite lookup_insert_eq. simpl. now rewrite lookup_insert_eq.
Qed.

(** A run of transactions, one after the other. *)
Lemma perform_all_runs ts : forall st a n,
  is_instance st a "BankAccount" = true ->
  no_own st a "deposit" = true -> no_own st a "withdraw" = true ->
  exists st' : state,
    perform_all (SrpGood.CT host NumberToString) (S n) (VObj a) ts st = Normal tt st' /\
    only_field_changed st st' a "balance" /\
    balance_of st' a
      = fold_left (after_transaction host NumberToString) ts (balance_of st a).
Proof.
  induction ts as [|t ts IH]; intros st a n Hi Hd Hw.
  - exists st. split; [reflexivity|]. split; [apply only_field_changed_refl|reflexivity].
  - destruct (perform_step st a n t Hi Hd Hw) as (st1 & Hrun & Hch & Hbal).
    destruct (IH st1 a n) as (st2 & Hrun2 & Hch2 & Hbal2).
    + destruct Hch as (_ & _ & Hinst & _). now rewrite Hinst.
    + now apply (only_field_changed_no_own st st1 a "balance").
    + now apply (only_field_changed_no_own st st1 a "balance").
    + exists st2. split; [|split].
      * simpl. unfold bind. now rewrite Hrun.
      * now apply only_field_changed_trans with (st2 := st1).
      * simpl. now rewrite Hbal2, Hbal.
Qed.

(** On Numbers and amounts that do not become strings, a transaction is
    one float addition or subtraction. *)
Lemma settle_fold ts : forall b : float,
  Forall (fun t => becomes_string (amount_of t) = false) ts ->
  fold_left (after_transaction host NumberToString) ts (VNum b) = VNum (settle host b ts).
Proof.
  induction ts as [|t ts IH]; intros b Hts; [reflexivity|].
  inversion Hts as [|t' ts' Ht Hts']; subst. simpl.
  destruct t as [x | x]; simpl in *.
  - unfold add. simpl. rewrite Ht. simpl. now apply IH.
  - unfold sub. simpl. now apply IH.
Qed.

Lemma settle_nan ts : settle host nan ts = nan.
Proof.
  unfold settle. induction ts as [|[x | x] ts IH]; simpl; [reflexivity| |].
  - now rewrite float_add_nan_l.
  - now rewrite float_sub_nan_l.
Qed.

(** The two extra methods apart, the two [BankAccount] classes are the
    same class. *)
Lemma bad_account_is_good_account n recv name args st :
  name <> "sendEmailNotification" -> name <> "logTransaction" ->
  invoke (SrpBad.CT host NumberToString) n recv name args st
  = invoke (SrpGood.CT host NumberToString) n recv name args st.
Proof.
  intros Hs Hlog. destruct recv; try (now destruct n).
  assert (Hm : forall C,
    lookup_method (SrpBad.CT host NumberToString) (size (SrpBad.CT host NumberToString)) C name
    = lookup_method (SrpGood.CT host NumberToString) (size (SrpGood.CT host NumberToString)) C name
    /\ forall f call call',
         lookup_method (SrpGood.CT host NumberToString)
           (size (SrpGood.CT host NumberToString)) C name = Some f ->
         f call = f call').
  { intros C. change (size (SrpBad.CT host NumberToString)) with 1.
    change (size (SrpGood.CT host NumberToString)) with 1.
    unfold SrpBad.CT, SrpGood.CT. simpl.
    destruct (decide (C = "BankAccount")) as [-> | Hne].
    - rewrite !lookup_singleton_eq. simpl.
      destruct (String.eqb_spec "deposit" name);
        [split; [reflexivity | now intros f call call' [= <-]]|].
      destruct (String.eqb_spec "withdraw" name);
        [split; [reflexivity | now intros f call call' [= <-]]|].
      destruct (String.eqb_spec "sendEmailNotification" name); [congruence|].
      destruct (String.eqb_spec "logTransaction" name); [congruence|].
      split; [reflexivity | discriminate].
    - rewrite !lookup_singleton_ne by congruence. split; [reflexivity | discriminate]. }
  destruct n; simpl; destruct (heap st !! l) as [o|]; try reflexivity;
    destruct (fields o !! name); try reflexivity;
    destruct (Hm (class_of o)) as [-> Hcall]; try reflexivity.
  destruct (lookup_method _ _ (class_of o) name) as [f|]; [|reflexivity].
  now rewrite (Hcall f (invoke (SrpBad.CT host NumberToString) n)
                 (invoke (SrpGood.CT host NumberToString) n)).
Qed.

Lemma perform_all_bad_good ts n acct st :
  perform_all (SrpBad.CT host NumberToString) n acct ts st
  = perform_all (SrpGood.CT host NumberToString) n acct ts st.
Proof.
  revert st. induction ts as [|t ts IH]; intros st; [reflexivity|].
  simpl. unfold bind.
  assert (Ht : perform (SrpBad.CT host NumberToString) n acct t st
               = perform (SrpGood.CT host NumberToString) n acct t st).
  { destruct t; unfold perform; now apply bad_account_is_good_account. }
  rewrite Ht. clear Ht.
  destruct (perform _ n acct t st); [apply IH | reflexivity | reflexivity].
Qed.

(** [new BankAccount(balance)] stores its argument unexamined. *)
Lemma new_BankAccount args st :
  new (SrpGood.CT host NumberToString) "BankAccount" args st
  = Normal (VObj (fresh (dom (heap st))))
      (after_new st "BankAccount" {[ "balance" := arg 0 args ]}).
Proof.
  unfold new, bind. change (size (SrpGood.CT host NumberToString)) with 1.
  simpl. change (SrpGood.CT host NumberToString !! "BankAccount")
    with (Some (SrpGood.BankAccount host NumberToString)).
  simpl. unfold bind, alloc, SrpGood.BankAccount_constructor, bind, resolve_this, ret,
    set_field. simpl. rewrite lookup_insert_eq. simpl.
  unfold after_new, with_object. rewrite insert_insert_eq. now rewrite insert_empty.
Qed.

Lemma new_bad_BankAccount args st :
  new (SrpBad.CT host NumberToString) "BankAccount" args st
  = new (SrpGood.CT host NumberToString) "BankAccount" args st.
Proof.
  rewrite new_BankAccount.
  unfold new, bind. change (size (SrpBad.CT host NumberToString)) with 1.
  simpl. change (SrpBad.CT host NumberToString !! "BankAccount")
    with (Some (SrpBad.BankAccount host NumberToString)).
  simpl. unfold bind, alloc, SrpBad.BankAccount_constructor, bind, resolve_this, ret,
    set_field. simpl. rewrite lookup_insert_eq. simpl.
  unfold after_new, with_object. rewrite insert_insert_eq. now rewrite insert_empty.
Qed.

(** A fresh account is an account, with the balance it was given. *)
Lemma fresh_account st (b : value) :
  is_instance (after_new st "BankAccount" {[ "balance" := b ]})
    (fresh (dom (heap st))) "BankAccount" = true /\
  no_own (after_new st "BankAccount" {[ "balance" := b ]})
    (fresh (dom (heap st))) "deposit" = true /\
  no_own (after_new st "BankAccount" {[ "balance" := b ]})
    (fresh (dom (heap st))) "withdraw" = true /\
  balance_of (after_new st "BankAccount" {[ "balance" := b ]})
    (fresh (dom (heap st))) = b.
Proof.
  split; [apply after_new_is_instance|].
  unfold no_own, balance_of, own, after_new, with_object. simpl.
  rewrite lookup_insert_eq. simpl. now rewrite lookup_singleton_eq.
Qed.

End BankAccountFacts.

(** ** Runs of transactions, call by call *)

Section BankAccountRuns.
Context (host : Host) (NumberToString : float -> string).

(** A run returns [undefined] from every call, and ends where
    [perform_all] ends. *)
Lemma perform_each_runs ts : forall st a n,
  is_instance st a "BankAccount" = true ->
  no_own st a "deposit" = true -> no_own st a "withdraw" = true ->
  exists st' : state,
    perform_each (SrpGood.CT host NumberToString) (S n) (VObj a) ts st
      = Normal (repeat VUndefined (length ts)) st' /\
    perform_all (SrpGood.CT host NumberToString) (S n) (VObj a) ts st = Normal tt st' /\
    only_field_changed st st' a "balance" /\
    balance_of st' a
      = fold_left (after_transaction host NumberToString) ts (balance_of st a).
Proof.
  induction ts as [|t ts IH]; intros st a n Hi Hd Hw.
  - exists st. split; [reflexivity|]. split; [reflexivity|].
    split; [apply only_field_changed_refl|reflexivity].
  - destruct (perform_step host NumberToString st a n t Hi Hd Hw) as (st1 & Hrun & Hch & Hbal).
    destruct (IH st1 a n) as (st2 & Heach & Hall & Hch2 & Hbal2).
    + destruct Hch as (_ & _ & Hinst & _). now rewrite Hinst.
    + now apply (only_field_changed_no_own st st1 a "balance").
    + now apply (only_field_changed_no_own st st1 a "balance").
    + exists st2. split; [|split; [|split]].
      * simpl. unfold bind. now rewrite Hrun, Heach.
      * simpl. unfold bind. now rewrite Hrun.
      * now apply only_field_changed_trans with (st2 := st1).
      * simpl. now rewrite Hbal2, Hbal.
Qed.

Lemma perform_each_bad_good ts n acct st :
  perform_each (SrpBad.CT host NumberToString) n acct ts st
  = perform_each (SrpGood.CT host NumberToString) n acct ts st.
Proof.
  revert st. induction ts as [|t ts IH]; intros st; [reflexivity|].
  simpl. unfold bind.
  assert (Ht : perform (SrpBad.CT host NumberToString) n acct t st
               = perform (SrpGood.CT host NumberToString) n acct t st).
  { destruct t; unfold perform; now apply bad_account_is_good_account. }
  rewrite Ht. clear Ht.
  destruct (perform _ n acct t st); [now rewrite IH | reflexivity | reflexivity].
Qed.

(** [+=] and [-=] leave a Number or a string. *)
Lemma after_transaction_plain (b : value) (t : transaction) :
  plain (after_transaction host NumberToString b t) = true.
Proof.
  destruct t as [x | x]; simpl; [|reflexivity].
  unfold add. now destruct (becomes_string b || becomes_string x).
Qed.

Lemma fold_transactions_plain ts : forall b : value,
  plain b = true ->
  plain (fold_left (after_transaction host NumberToString) ts b) = true.
Proof.
  induction ts as [|t ts IH]; intros b Hb; [exact Hb|].
  simpl. apply IH, after_transaction_plain.
Qed.

End BankAccountRuns.

(** An operand that is read as a Number is not one that [+] reads as
    text. *)
Lemma converts_to_number_not_string (v : value) :
  converts_to_number v = true -> becomes_string v = false.
Proof. now destruct v. Qed.

Lemma numeric_amounts (ts : list transaction) :
  Forall (fun t => converts_to_number (amount_of t) = true) ts ->
  Forall (fun t => becomes_string (amount_of t) = false) ts.
Proof.
  induction 1 as [|t ts Ht _ IH]; constructor; [|exact IH].
  now apply converts_to_number_not_string.
Qed.

(** X1. On an account, of either [BankAccount] class, whose balance is a
    primitive ([undefined], [null], a boolean, a Number or a string),
    whatever run of deposits and withdrawals of primitive amounts is
    made, every call returns [undefined], nothing is thrown and nothing
    is printed, and the only thing that changes is the [balance] field of
    that account: every other object, and the class and the other fields
    of the account, are as before.  The balance is a primitive again
    afterwards, so the same holds of the next run. *)
Theorem account_run_changes_only_its_balance :
  forall (host : Host) (NumberToString : float -> string)
         (ts : list transaction) (st : state) (a : loc) (n : nat),
    is_instance st a "BankAccount" = true ->
    no_own st a "deposit" = true -> no_own st a "withdraw" = true ->
    plain (balance_of st a) = true ->
    Forall (fun t => plain (amount_of t) = true) ts ->
    exists st' : state,
      perform_each (SrpGood.CT host NumberToString) (S n) (VObj a) ts st
        = Normal (repeat VUndefined (length ts)) st' /\
      perform_each (SrpBad.CT host NumberToString) (S n) (VObj a) ts st
        = Normal (repeat VUndefined (length ts)) st' /\
      only_field_changed st st' a "balance" /\
      plain (balance_of st' a) = true.
Proof.
  intros host nts ts st a n Hi Hd Hw Hb _.
  destruct (perform_each_runs host nts ts st a n Hi Hd Hw) as (st' & Hrun & _ & Hch & Hbal).
  exists st'. split; [exact Hrun|]. split; [now rewrite perform_each_bad_good|].
  split; [exact Hch|]. rewrite Hbal. now apply fold_transactions_plain.
Qed.

Lemma account_run_witness :
  exists st' : state,
    perform_each (SrpGood.CT sample_host sample_text) 1 (VObj 1%positive)
      [Deposit (VNum 5); Withdraw (VStr "2")]
      (with_object initial 1%positive (Object "BankAccount" {[ "balance" := VNum 10 ]}))
    = Normal [VUndefined; VUndefined] st' /\
    only_field_changed
      (with_object initial 1%positive (Object "BankAccount" {[ "balance" := VNum 10 ]}))
      st' 1%positive "balance".
Proof.
  destruct (account_run_changes_only_its_balance sample_host sample_text
              [Deposit (VNum 5); Withdraw (VStr "2")]
              (with_object initial 1%positive
                 (Object "BankAccount" {[ "balance" := VNum 10 ]}))
              1%positive 0)
    as (st' & Hg & _ & Hch & _);
    [reflexivity | reflexivity | reflexivity | reflexivity | repeat constructor |].
  exists st'. split; [exact Hg | exact Hch].
Defined.

(** X2. On an account whose balance is a Number, a run of deposits and
    withdrawals whose amounts are Numbers, booleans, [null] or
    [undefined] leaves the Number obtained by adding and subtracting the
    amounts, converted to Numbers, from left to right in binary64
    arithmetic. *)
Theorem account_balance_is_the_running_sum :
  forall (host : Host) (NumberToString : float -> string)
         (ts : list transaction) (st : state) (a : loc) (n : nat) (b : float),
    is_instance st a "BankAccount" = true ->
    no_own st a "deposit" = true -> no_own st a "withdraw" = true ->
    balance_of st a = VNum b ->
    Forall (fun t => converts_to_number (amount_of t) = true) ts ->
    exists st' : state,
      perform_all (SrpGood.CT host NumberToString) (S n) (VObj a) ts st = Normal tt st' /\
      balance_of st' a = VNum (settle host b ts).
Proof.
  intros host nts ts st a n b Hi Hd Hw Hb Hts.
  destruct (perform_all_runs host nts ts st a n Hi Hd Hw) as (st' & Hrun & _ & Hbal).
  exists st'. split; [exact Hrun|].
  rewrite Hbal, Hb. now apply settle_fold, numeric_amounts.
Qed.

Lemma account_balance_witness :
  exists st' : state,
    perform_all (SrpGood.CT sample_host sample_text) 1 (VObj 1%positive)
      [Deposit (VNum 5); Withdraw (VNum 2)]
      (with_object initial 1%positive (Object "BankAccount" {[ "balance" := VNum 10 ]}))
    = Normal tt st' /\
    balance_of st' 1%positive = VNum 13.
Proof.
  apply (account_balance_is_the_running_sum sample_host sample_text
           [Deposit (VNum 5); Withdraw (VNum 2)]
           (with_object initial 1%positive (Object "BankAccount" {[ "balance" := VNum 10 ]}))
           1%positive 0 10%float); try reflexivity.
  repeat constructor.
Defined.

(** X3. An account opened without an initial balance ([new
    BankAccount()]) has the balance [undefined]; its first deposit or
    withdrawal of an amount that is a Number, a boolean, [null] or
    [undefined] makes the balance NaN, and NaN it stays: after any
    non-empty run of such amounts the balance is NaN.  The same holds
    for any account whose balance is NaN already. *)
Theorem account_without_balance_is_nan :
  forall (host : Host) (NumberToString : float -> string)
         (t : transaction) (ts : list transaction) (st : state) (n : nat),
    Forall (fun t => converts_to_number (amount_of t) = true) (t :: ts) ->
    (exists (a : loc) (st0 st' : state),
       heap st !! a = None /\
       new (SrpGood.CT host NumberToString) "BankAccount" [] st = Normal (VObj a) st0 /\
       own st0 a "balance" = Some VUndefined /\
       perform_all (SrpGood.CT host NumberToString) (S n) (VObj a) (t :: ts) st0
       = Normal tt st' /\
       balance_of st' a = VNum nan) /\
    (forall a : loc,
       is_instance st a "BankAccount" = true ->
       no_own st a "deposit" = true -> no_own st a "withdraw" = true ->
       balance_of st a = VNum nan ->
       exists st' : state,
         perform_all (SrpGood.CT host NumberToString) (S n) (VObj a) (t :: ts) st
         = Normal tt st' /\
         balance_of st' a = VNum nan).
Proof.
  intros host nts t ts st n Hnum.
  pose proof (numeric_amounts _ Hnum) as Hts. split.
  - exists (fresh (dom (heap st))), (after_new st "BankAccount" {[ "balance" := VUndefined ]}).
    destruct (fresh_account st VUndefined) as (Hi & Hd & Hw & Hb).
    destruct (perform_all_runs host nts (t :: ts) _ _ n Hi Hd Hw) as (st' & Hrun & _ & Hbal).
    exists st'. split; [apply fresh_not_allocated|].
    split; [now rewrite new_BankAccount|]. split.
    { unfold own, after_new, with_object. simpl. rewrite lookup_insert_eq. simpl.
      apply lookup_singleton_eq. }
    split; [exact Hrun|].
    rewrite Hbal, Hb. inversion Hts as [|t' ts' Ht Hts']; subst. simpl.
    assert (H1 : after_transaction host nts VUndefined t = VNum nan).
    { destruct t as [x | x]; simpl in *.
      - unfold add. simpl. rewrite Ht. simpl. now rewrite float_add_nan_l.
      - unfold sub. simpl. now rewrite float_sub_nan_l. }
    rewrite H1, settle_fold by assumption. now rewrite settle_nan.
  - intros a Hi Hd Hw Hb.
    destruct (perform_all_runs host nts (t :: ts) st a n Hi Hd Hw) as (st' & Hrun & _ & Hbal).
    exists st'. split; [exact Hrun|].
    rewrite Hbal, Hb, settle_fold by assumption. now rewrite settle_nan.
Qed.

Lemma account_without_balance_witness :
  exists (a : loc) (st0 st' : state),
    new (SrpGood.CT sample_host sample_text) "BankAccount" [] initial = Normal (VObj a) st0 /\
    own st0 a "balance" = Some VUndefined /\
    perform_all (SrpGood.CT sample_host sample_text) 1 (VObj a)
      [Deposit (VNum 100); Withdraw (VNum 30)] st0
    = Normal tt st' /\
    balance_of st' a = VNum nan.
Proof.
  destruct (account_without_balance_is_nan sample_host sample_text
              (Deposit (VNum 100)) [Withdraw (VNum 30)] initial 0)
    as [(a & st0 & st' & _ & Hnew & Hown & Hrun & Hb) _].
  - repeat constructor.
  - exists a, st0, st'. repeat split; assumption.
Defined.

(** X4. [deposit] uses [+=], so when the balance or the amount is a
    string, and the other one is a primitive too ([undefined], [null], a
    boolean, a Number or a string), the amount is appended as text, not
    added: the balance becomes the string made of the old balance and the
    amount.  A balance that is a string stays a string under every
    further deposit of a primitive, each amount appended at the end. *)
Theorem deposits_append_to_a_string_balance :
  forall (host : Host) (NumberToString : float -> string)
         (st : state) (a : loc) (n : nat),
    is_instance st a "BankAccount" = true ->
    no_own st a "deposit" = true -> no_own st a "withdraw" = true ->
    (forall x : value,
       plain (balance_of st a) = true -> plain x = true ->
       becomes_string (balance_of st a) || becomes_string x = true ->
       exists st' : state,
         invoke (SrpGood.CT host NumberToString) (S n) (VObj a) "deposit" [x] st
         = Normal VUndefined st' /\
         balance_of st' a
         = VStr (String.append (ToString NumberToString (balance_of st a))
                               (ToString NumberToString x))) /\
    (forall (s : string) (amounts : list value),
       balance_of st a = VStr s ->
       Forall (fun x => plain x = true) amounts ->
       exists st' : state,
         perform_all (SrpGood.CT host NumberToString) (S n) (VObj a)
           (map Deposit amounts) st = Normal tt st' /\
         balance_of st' a
         = VStr (fold_left String.append (map (ToString NumberToString) amounts) s)).
Proof.
  intros host nts st a n Hi Hd Hw. split.
  - intros x _ _ Hx.
    destruct (perform_step host nts st a n (Deposit x) Hi Hd Hw) as (st' & Hrun & _ & Hbal).
    exists st'. split; [exact Hrun|]. rewrite Hbal. simpl. unfold add. now rewrite Hx.
  - intros s amounts Hb _.
    destruct (perform_all_runs host nts (map Deposit amounts) st a n Hi Hd Hw)
      as (st' & Hrun & _ & Hbal).
    exists st'. split; [exact Hrun|]. rewrite Hbal, Hb. clear.
    revert s. induction amounts as [|x xs IH]; intros s; [reflexivity|].
    simpl. change (add host nts (VStr s) x) with (VStr (String.append s (ToString nts x))).
    apply IH.
Qed.

Lemma deposits_append_witness :
  exists st' : state,
    perform_all (SrpGood.CT sample_host sample_text) 1 (VObj 1%positive)
      (map Deposit [VStr "5"; VStr "0"])
      (with_object initial 1%positive (Object "BankAccount" {[ "balance" := VStr "10" ]}))
    = Normal tt st' /\
    balance_of st' 1%positive = VStr "1050".
Proof.
  assert (H : is_instance
                (with_object initial 1%positive
                   (Object "BankAccount" {[ "balance" := VStr "10" ]}))
                1%positive "BankAccount" = true) by reflexivity.
  apply (deposits_append_to_a_string_balance sample_host sample_text _ 1%positive 0) in H;
    [|reflexivity|reflexivity].
  apply (proj2 H "10" [VStr "5"; VStr "0"]); [reflexivity | repeat constructor].
Defined.

(** X5. Withdrawing nothing changes nothing: on an account whose balance
    is a Number, [withdraw(0)], and [withdraw(null)] and
    [withdraw(false)], which convert to 0, leave the whole state as it
    was, the balance bit for bit (NaN, the infinities and -0
    included). *)
Theorem withdrawing_zero_changes_nothing :
  forall (host : Host) (NumberToString : float -> string)
         (st : state) (a : loc) (n : nat) (b : float) (amount : value),
    is_instance st a "BankAccount" = true ->
    no_own st a "deposit" = true -> no_own st a "withdraw" = true ->
    balance_of st a = VNum b ->
    In amount [VNum 0; VNull; VBool false] ->
    invoke (SrpGood.CT host NumberToString) (S n) (VObj a) "withdraw" [amount] st
    = Normal VUndefined st.
Proof.
  intros host nts st a n b amount Hi Hd Hw Hb Ha.
  destruct (instance_inv _ _ _ _ Hi Hd) as (o & Hl & HC & Hfd).
  pose proof (no_own_lookup _ _ _ _ Hl Hw) as Hfw.
  pose proof (perform_runs host nts st a o n (Withdraw amount) Hl HC Hfd Hfw) as Hrun.
  unfold perform in Hrun. rewrite Hrun. f_equal.
  assert (Hz : after_transaction host nts (balance_of st a) (Withdraw amount) = VNum b).
  { rewrite Hb. simpl. unfold sub. simpl in Ha.
    destruct Ha as [<- | [<- | [<- | []]]]; simpl; now rewrite float_sub_zero_r. }
  rewrite Hz.
  assert (Hf : fields o !! "balance" = Some (VNum b)).
  { unfold balance_of in Hb. rewrite (own_lookup _ _ _ _ Hl) in Hb.
    destruct (fields o !! "balance"); simpl in Hb; [now subst | discriminate]. }
  unfold with_object. rewrite (insert_id (fields o)) by exact Hf.
  destruct o as [C fs]. simpl. rewrite insert_id by exact Hl. now destruct st.
Qed.

Lemma withdrawing_zero_witness :
  invoke (SrpGood.CT sample_host sample_text) 1 (VObj 1%positive) "withdraw" [VNum 0]
    (with_object initial 1%positive (Object "BankAccount" {[ "balance" := VNum 10 ]}))
  = Normal VUndefined
      (with_object initial 1%positive (Object "BankAccount" {[ "balance" := VNum 10 ]})).
Proof.
  apply (withdrawing_zero_changes_nothing sample_host sample_text
           (with_object initial 1%positive (Object "BankAccount" {[ "balance" := VNum 10 ]}))
           1%positive 0 10%float (VNum 0)); try reflexivity.
  simpl. auto.
Defined.

(** X6. The [BankAccount] of the violated snippet is the [BankAccount]
    of the applied one plus two methods with empty bodies.  Construction
    and every call other than those two behave the same in both; the two
    extra methods, [sendEmailNotification] and [logTransaction], return
    [undefined] and send, log, print and change nothing, whatever they
    are given (on the other class they do not exist, and the call is a
    TypeError). *)
Theorem bad_account_adds_two_empty_methods :
  forall (host : Host) (NumberToString : float -> string),
    (forall (n : nat) (recv : value) (name : string) (args : list value) (st : state),
       name <> "sendEmailNotification" -> name <> "logTransaction" ->
       invoke (SrpBad.CT host NumberToString) n recv name args st
       = invoke (SrpGood.CT host NumberToString) n recv name args st) /\
    (forall (args : list value) (st : state),
       new (SrpBad.CT host NumberToString) "BankAccount" args st
       = new (SrpGood.CT host NumberToString) "BankAccount" args st) /\
    (forall (st : state) (a : loc) (n : nat) (args : list value) (name : string),
       In name ["sendEmailNotification"; "logTransaction"] ->
       is_instance st a "BankAccount" = true -> no_own st a name = true ->
       invoke (SrpBad.CT host NumberToString) (S n) (VObj a) name args st
       = Normal VUndefined st /\
       invoke (SrpGood.CT host NumberToString) n (VObj a) name args st
       = Throw TypeError st).
Proof.
  intros host nts. split; [intros; now apply bad_account_is_good_account|].
  split; [intros; apply new_bad_BankAccount|].
  intros st a n args name Hname Hi Hn. simpl in Hname.
  destruct Hname as [<- | [<- | []]]; split.
  - now rewrite (invoke_instance _ n a "BankAccount" "sendEmailNotification"
                   (SrpBad.sendEmailNotification)).
  - now apply invoke_missing with (C := "BankAccount").
  - now rewrite (invoke_instance _ n a "BankAccount" "logTransaction"
                   (SrpBad.logTransaction)).
  - now apply invoke_missing with (C := "BankAccount").
Qed.

Lemma bad_account_witness :
  invoke (SrpBad.CT sample_host sample_text) 1 (VObj 1%positive) "logTransaction" []
    (one_object "BankAccount")
  = Normal VUndefined (one_object "BankAccount").
Proof.
  destruct (bad_account_adds_two_empty_methods sample_host sample_text) as (_ & _ & H).
  apply (H (one_object "BankAccount") 1%positive 0 [] "logTransaction");
    [simpl; auto | reflexivity | reflexivity].
Defined.

(** ** The [Car] that builds its [GasEngine] (dependency inversion,
    violated) *)

Lemma extends_heap_after_new st C fs : extends_heap st (after_new st C fs).
Proof. intros l o H. now apply after_new_other. Qed.

Lemma extends_heap_trans st1 st2 st3 :
  extends_heap st1 st2 -> extends_heap st2 st3 -> extends_heap st1 st3.
Proof. intros H1 H2 l o H. auto. Qed.

(** [new Car(...)]: the car is allocated, then its engine, then the
    engine is stored in the car.  The arguments are not looked at. *)
Lemma new_bad_Car args st :
  exists (c e : loc) (st' : state),
    new DipBad.CT "Car" args st = Normal (VObj c) st' /\
    c = fresh (dom (heap st)) /\
    c <> e /\ heap st !! c = None /\ heap st !! e = None /\
    heap st' !! c = Some (Object "Car" {[ "engine" := VObj e ]}) /\
    heap st' !! e = Some (Object "GasEngine" ∅) /\
    extends_heap st st' /\ console st' = console st.
Proof.
  set (c := fresh (dom (heap st))).
  set (st1 := after_new st "Car" ∅).
  set (e := fresh (dom (heap st1))).
  set (st2 := after_new st1 "GasEngine" ∅).
  assert (Hc1 : heap st1 !! c = Some (Object "Car" ∅))
    by (unfold st1, after_new, with_object; simpl; apply lookup_insert_eq).
  assert (Hce : c <> e).
  { intros E. pose proof (fresh_not_allocated st1) as Hf. fold e in Hf.
    rewrite <- E, Hc1 in Hf. discriminate. }
  assert (Hc2 : heap st2 !! c = Some (Object "Car" ∅))
    by (now apply after_new_other).
  exists c, e, (with_object st2 c (Object "Car" {[ "engine" := VObj e ]})).
  split; [|split; [reflexivity|]].
  - unfold new, bind. change (size DipBad.CT) with 2. simpl.
    change (DipBad.CT !! "Car") with (Some DipBad.Car). simpl.
    unfold bind, alloc, DipBad.Car_constructor, resolve_this, bind, ret, new, bind.
    change (size ({[ "GasEngine" := DipBad.GasEngine ]} : class_table)) with 1. simpl.
    change (({[ "GasEngine" := DipBad.GasEngine ]} : class_table) !! "GasEngine")
      with (Some DipBad.GasEngine). simpl.
    unfold alloc, set_field. simpl.
    rewrite lookup_insert_ne by (intros E; apply Hce; symmetry; exact E).
    rewrite lookup_insert_eq. simpl. now rewrite insert_empty.
  - split; [exact Hce|]. split; [apply fresh_not_allocated|].
    assert (He : heap st !! e = None).
    { destruct (heap st !! e) as [o|] eqn:Ho; [|reflexivity].
      pose proof (after_new_other st "Car" ∅ e o Ho) as H1. fold st1 in H1.
      pose proof (fresh_not_allocated st1) as Hf. fold e in Hf. congruence. }
    split; [exact He|]. unfold with_object. simpl.
    split; [apply lookup_insert_eq|].
    split; [rewrite lookup_insert_ne by exact Hce;
            unfold st2, after_new, with_object; simpl; apply lookup_insert_eq|].
    split; [|reflexivity].
    intros l o Hl. simpl. rewrite lookup_insert_ne.
    + apply (after_new_other st1 "GasEngine" ∅ l o).
      exact (after_new_other st "Car" ∅ l o Hl).
    + intros E. subst l. unfold c in Hl. rewrite fresh_not_allocated in Hl. discriminate.
Qed.

(** [car.start()] on a car whose engine is a [GasEngine]. *)
Lemma bad_Car_starts st c e n args :
  heap st !! c = Some (Object "Car" {[ "engine" := VObj e ]}) ->
  heap st !! e = Some (Object "GasEngine" ∅) ->
  invoke DipBad.CT (S (S n)) (VObj c) "start" args st
  = Normal VUndefined (logged st "Gas Engine started").
Proof.
  intros Hc He.
  rewrite (invoke_method _ (S n) c _ "start" DipBad.Car_start args st Hc);
    [|reflexivity|reflexivity].
  unfold DipBad.Car_start, bind, get_field. rewrite Hc.
  change (default VUndefined (fields (Object "Car" {[ "engine" := VObj e ]}) !! "engine"))
    with (VObj e).
  now rewrite (invoke_method _ n e _ "start" DipBad.GasEngine_start [] st He).
Qed.

(** X7. The [Car] of the violated snippet cannot be given an engine:
    whatever arguments [new Car(...)] receives, it ignores them, builds a
    new [GasEngine] of its own (an object that did not exist before and
    is not the car), prints nothing and leaves every existing object as
    it was; and [start()] on that car writes "Gas Engine started". *)
Theorem car_builds_its_own_gas_engine :
  forall (args : list value) (st : state),
  exists (c e : loc) (st' : state),
    new DipBad.CT "Car" args st = Normal (VObj c) st' /\
    new DipBad.CT "Car" [] st = Normal (VObj c) st' /\
    c <> e /\ heap st !! c = None /\ heap st !! e = None /\
    is_instance st' c "Car" = true /\
    own st' c "engine" = Some (VObj e) /\
    is_instance st' e "GasEngine" = true /\
    extends_heap st st' /\ console st' = console st /\
    (forall n : nat,
       invoke DipBad.CT (S (S n)) (VObj c) "start" [] st'
       = Normal VUndefined (logged st' "Gas Engine started")).
Proof.
  intros args st.
  destruct (new_bad_Car args st) as (c & e & st' & Hnew & Hc & Hce & Hnc & Hne & Hhc & Hhe & Hext & Hcon).
  exists c, e, st'. split; [exact Hnew|]. split; [exact Hnew|].
  split; [exact Hce|]. split; [exact Hnc|]. split; [exact Hne|].
  split; [unfold is_instance; now rewrite Hhc|].
  split; [unfold own; rewrite Hhc; simpl; apply lookup_singleton_eq|].
  split; [unfold is_instance; now rewrite Hhe|].
  split; [exact Hext|]. split; [exact Hcon|].
  intros n. now apply bad_Car_starts with (e := e).
Qed.

(** X8. Two cars of the violated snippet never share an engine: built
    one after the other, with any arguments, they are two different cars
    holding two different engines, and the second construction leaves the
    first car and its engine as they were. *)
Theorem two_cars_two_gas_engines :
  forall (args1 args2 : list value) (st : state),
  exists (c1 e1 c2 e2 : loc) (st' : state),
    (x <- new DipBad.CT "Car" args1 ;;
     y <- new DipBad.CT "Car" args2 ;;
     ret (x, y)) st = Normal (VObj c1, VObj c2) st' /\
    own st' c1 "engine" = Some (VObj e1) /\
    own st' c2 "engine" = Some (VObj e2) /\
    is_instance st' e1 "GasEngine" = true /\
    is_instance st' e2 "GasEngine" = true /\
    NoDup [c1; e1; c2; e2].
Proof.
  intros args1 args2 st.
  destruct (new_bad_Car args1 st)
    as (c1 & e1 & st1 & Hnew1 & _ & Hce1 & _ & _ & Hc1 & He1 & _ & _).
  destruct (new_bad_Car args2 st1)
    as (c2 & e2 & st2 & Hnew2 & _ & Hce2 & Hnc2 & Hne2 & Hc2 & He2 & Hext & _).
  exists c1, e1, c2, e2, st2.
  split; [unfold bind; now rewrite Hnew1, Hnew2|].
  split; [unfold own; rewrite (Hext _ _ Hc1); simpl; apply lookup_singleton_eq|].
  split; [unfold own; rewrite Hc2; simpl; apply lookup_singleton_eq|].
  split; [unfold is_instance; now rewrite (Hext _ _ He1)|].
  split; [unfold is_instance; now rewrite He2|].
  repeat constructor; rewrite ?list_elem_of_In; simpl; intuition congruence.
Qed.

(** ** Cars around cars (dependency inversion, applied) *)

Lemma drop_value_twice (o : outcome value) : drop_value (drop_value o) = drop_value o.
Proof. now destruct o. Qed.

(** [k + 1] cars, each built around the one before: [start()] on the
    outermost is [P.start()], reached through [k + 1] nested calls. *)
Lemma wrap_in_cars_delegates k : forall (P : value) (st : state),
  exists (outer : loc) (st' : state),
    wrap_in_cars (S k) P st = Normal (VObj outer) st' /\
    extends_heap st st' /\ console st' = console st /\
    forall n : nat,
      invoke DipGood.CT (S k + n) (VObj outer) "start" [] st'
      = drop_value (invoke DipGood.CT n P "start" [] st').
Proof.
  induction k as [|k IH]; intros P st.
  - exists (fresh (dom (heap st))), (after_new st "Car" {[ "engine" := P ]}).
    split; [simpl; unfold bind; now rewrite (new_Car _ DipGood_Car)|].
    split; [apply extends_heap_after_new|]. split; [reflexivity|].
    intros n. change (1 + n) with (S n).
    rewrite (Car_start_unfold _ DipGood_Car n _ (Object "Car" {[ "engine" := P ]})).
    + simpl. now rewrite lookup_singleton_eq.
    + apply lookup_insert_eq.
    + reflexivity.
    + reflexivity.
  - destruct (IH (VObj (fresh (dom (heap st)))) (after_new st "Car" {[ "engine" := P ]}))
      as (outer & st' & Hrun & Hext & Hcon & Hcall).
    exists outer, st'.
    split; [change (wrap_in_cars (S (S k)) P st)
              with ((c <- new DipGood.CT "Car" [P] ;; wrap_in_cars (S k) c) st);
            unfold bind; now rewrite (new_Car _ DipGood_Car)|].
    split; [apply extends_heap_trans with (st2 := after_new st "Car" {[ "engine" := P ]});
            [apply extends_heap_after_new | exact Hext]|].
    split; [exact Hcon|].
    intros n. replace (S (S k) + n) with (S k + S n) by lia.
    rewrite Hcall.
    rewrite (Car_start_unfold _ DipGood_Car n _ (Object "Car" {[ "engine" := P ]})).
    + simpl. rewrite lookup_singleton_eq. simpl. apply drop_value_twice.
    + apply Hext. apply lookup_insert_eq.
    + reflexivity.
    + reflexivity.
Qed.

(** X9. Cars can be nested: a [Car] is itself something with a
    [start()], so [new Car(new Car(... new Car(P)))] is accepted.  With
    [k + 1] cars around [P], [start()] on the outermost one does what
    [P.start()] does, through [k + 1] nested calls; around an [Engine] it
    writes "Engine started" exactly once, and needs a call depth of
    [k + 2], one more than the number of cars. *)
Theorem nested_cars_start_the_innermost_engine :
  forall (k : nat) (e : loc) (st : state),
    is_instance st e "Engine" = true -> no_own st e "start" = true ->
    exists (outer : loc) (st' : state),
      wrap_in_cars (S k) (VObj e) st = Normal (VObj outer) st' /\
      extends_heap st st' /\ console st' = console st /\
      (forall n : nat,
         invoke DipGood.CT (S k + S n) (VObj outer) "start" [] st'
         = Normal VUndefined (logged st' "Engine started")) /\
      invoke DipGood.CT (S k) (VObj outer) "start" [] st' = OutOfFuel.
Proof.
  intros k e st Hi Hn.
  destruct (wrap_in_cars_delegates k (VObj e) st) as (outer & st' & Hrun & Hext & Hcon & Hcall).
  destruct (instance_inv _ _ _ _ Hi Hn) as (o & Ho & HC & Hf).
  pose proof (Hext _ _ Ho) as Ho'.
  exists outer, st'. split; [exact Hrun|]. split; [exact Hext|]. split; [exact Hcon|].
  split.
  - intros n. rewrite Hcall.
    rewrite (invoke_method _ n e o "start" DipGood.Engine_start [] st' Ho' Hf);
      [reflexivity | now rewrite HC].
  - replace (S k) with (S k + 0) at 1 by lia. rewrite Hcall.
    simpl. rewrite Ho', Hf, HC. reflexivity.
Qed.

Lemma nested_cars_witness :
  exists (outer : loc) (st' : state),
    wrap_in_cars 3 (VObj 1%positive) (one_object "Engine") = Normal (VObj outer) st' /\
    invoke DipGood.CT 4 (VObj outer) "start" [] st'
    = Normal VUndefined (logged st' "Engine started").
Proof.
  destruct (nested_cars_start_the_innermost_engine 2 1%positive (one_object "Engine"))
    as (outer & st' & Hrun & _ & _ & Hcall & _); [reflexivity | reflexivity |].
  exists outer, st'. split; [exact Hrun | exact (Hcall 0)].
Defined.

(** X10. [start()] delegates without any check, so on cars that are bound
    in a ring (each one's engine is a car of the ring, a car that is its
    own engine for instance) the call never completes: whatever call
    depth is allowed, it is used up. *)
Theorem ring_of_cars_never_starts :
  forall (ring : loc -> Prop) (st : state),
    (forall l : loc, ring l ->
       exists (fs : gmap string value) (l' : loc),
         heap st !! l = Some (Object "Car" fs) /\
         fs !! "start" = None /\ fs !! "engine" = Some (VObj l') /\ ring l') ->
    forall (n : nat) (l : loc) (args : list value),
      ring l -> invoke DipGood.CT n (VObj l) "start" args st = OutOfFuel.
Proof.
  intros ring st Hring n. induction n as [|n IH]; intros l args Hl;
    destruct (Hring l Hl) as (fs & l' & Hh & Hs & He & Hl').
  - simpl. rewrite Hh. simpl. now rewrite Hs.
  - rewrite (Car_start_unfold _ DipGood_Car n l (Object "Car" fs) args st Hh eq_refl Hs).
    simpl. rewrite He. simpl. now rewrite IH.
Qed.

Lemma ring_of_cars_witness :
  invoke DipGood.CT 5 (VObj 1%positive) "start" []
    (with_object initial 1%positive (Object "Car" {[ "engine" := VObj 1%positive ]}))
  = OutOfFuel.
Proof.
  apply (ring_of_cars_never_starts (fun l => l = 1%positive)); [|reflexivity].
  intros l ->. exists {[ "engine" := VObj 1%positive ]}, 1%positive.
  repeat split.
Defined.

(** ** [Vehicle], [Car], [Boat] (Liskov substitution, violated) *)

(** X11. A client that starts the engine and then drives,
    [v.startEngine(); v.drive();]: with a [Vehicle] it does nothing and
    returns; with a [Car] it writes two lines; with a [Boat] put in the
    car's place the first call succeeds like the car's, writing "Engine
    started", and the second throws, so the client ends in an error with
    the engine already reported as started.  On [startEngine()] alone
    [Boat] and [Car] are interchangeable. *)
Theorem boat_fails_after_starting_its_engine :
  forall (st : state) (n : nat) (v : loc),
    no_own st v "startEngine" = true -> no_own st v "drive" = true ->
    (is_instance st v "Vehicle" = true ->
     start_and_drive (S n) (VObj v) st = Normal VUndefined st) /\
    (is_instance st v "Car" = true ->
     start_and_drive (S n) (VObj v) st
     = Normal VUndefined (logged (logged st "Engine started") "Driving on the road")) /\
    (is_instance st v "Boat" = true ->
     start_and_drive (S n) (VObj v) st
     = Throw (Error "I can't drive, I can only float!") (logged st "Engine started")) /\
    (forall C : string, In C ["Car"; "Boat"] -> is_instance st v C = true ->
     invoke LspBad.CT (S n) (VObj v) "startEngine" [] st
     = Normal VUndefined (logged st "Engine started")).
Proof.
  intros st n v Hs Hd.
  split; [|split; [|split]].
  - intros Hi. unfold start_and_drive, bind.
    rewrite (invoke_instance _ n v "Vehicle" "startEngine" LspBad.Vehicle_startEngine);
      auto.
    change (LspBad.Vehicle_startEngine (invoke LspBad.CT n) v [] st)
      with (Normal VUndefined st). cbv beta iota.
    now rewrite (invoke_instance _ n v "Vehicle" "drive" LspBad.Vehicle_drive).
  - intros Hi. unfold start_and_drive, bind.
    rewrite (invoke_instance _ n v "Car" "startEngine" LspBad.Car_startEngine); auto.
    change (LspBad.Car_startEngine (invoke LspBad.CT n) v [] st)
      with (Normal VUndefined (logged st "Engine started")). cbv beta iota.
    now rewrite (invoke_instance _ n v "Car" "drive" LspBad.Car_drive).
  - intros Hi. unfold start_and_drive, bind.
    rewrite (invoke_instance _ n v "Boat" "startEngine" LspBad.Boat_startEngine); auto.
    change (LspBad.Boat_startEngine (invoke LspBad.CT n) v [] st)
      with (Normal VUndefined (logged st "Engine started")). cbv beta iota.
    now rewrite (invoke_instance _ n v "Boat" "drive" LspBad.Boat_drive).
  - intros C HC Hi. simpl in HC. destruct HC as [<- | [<- | []]].
    + now rewrite (invoke_instance _ n v "Car" "startEngine" LspBad.Car_startEngine).
    + now rewrite (invoke_instance _ n v "Boat" "startEngine" LspBad.Boat_startEngine).
Qed.

Lemma boat_fails_witness :
  start_and_drive 1 (VObj 1%positive) (one_object "Boat")
  = Throw (Error "I can't drive, I can only float!")
      (logged (one_object "Boat") "Engine started").
Proof.
  apply (boat_fails_after_starting_its_engine (one_object "Boat") 0 1%positive);
    reflexivity.
Defined.

(** ** What can be built in the open-closed snippet *)

(** X12. Of the three classes of the applied open-closed snippet only
    [Shape] can be instantiated, whatever the arguments: [new Shape()]
    returns a new object, whose [area()] is [undefined], while [new
    Rectangle(...)] and [new Circle(...)] throw and leave the state as it
    was.  So no object this snippet can build has a numeric area. *)
Theorem only_Shape_can_be_built :
  forall (host : Host) (C : string) (args : list value) (st : state),
    In C ["Shape"; "Rectangle"; "Circle"] ->
    (completes (new (OcpGood.CT host) C args st) = true <-> C = "Shape") /\
    (C <> "Shape" -> new (OcpGood.CT host) C args st = Throw ReferenceError st) /\
    (C = "Shape" ->
     new (OcpGood.CT host) C args st
     = Normal (VObj (fresh (dom (heap st)))) (after_new st "Shape" ∅) /\
     forall (n : nat) (args' : list value),
       invoke (OcpGood.CT host) (S n) (VObj (fresh (dom (heap st)))) "area" args'
         (after_new st "Shape" ∅)
       = Normal VUndefined (after_new st "Shape" ∅)).
Proof.
  intros host C args st HC. simpl in HC.
  destruct HC as [<- | [<- | [<- | []]]].
  - change (new (OcpGood.CT host) "Shape" args st)
      with (Normal (VObj (fresh (dom (heap st)))) (after_new st "Shape" ∅)).
    split; [now split|]. split; [congruence|].
    intros _. split; [reflexivity|]. intros n args'.
    rewrite (invoke_instance _ n _ "Shape" "area" OcpGood.Shape_area);
      [reflexivity | apply after_new_is_instance | apply after_new_no_own | reflexivity].
  - change (new (OcpGood.CT host) "Rectangle" args st) with (@Throw value ReferenceError st).
    split; [split; [intros H; simpl in H | intros H]; discriminate H|].
    split; [reflexivity | intros H; discriminate H].
  - change (new (OcpGood.CT host) "Circle" args st) with (@Throw value ReferenceError st).
    split; [split; [intros H; simpl in H | intros H]; discriminate H|].
    split; [reflexivity | intros H; discriminate H].
Qed.

Lemma only_Shape_witness :
  new (OcpGood.CT sample_host) "Circle" [VNum 3] initial = Throw ReferenceError initial.
Proof.
  apply (only_Shape_can_be_built sample_host "Circle" [VNum 3] initial);
    [simpl; auto | discriminate].
Defined.

(** ** More on [ShapeCalculator] *)

Lemma strict_equal_string (v : value) (s : string) :
  strict_equal v (VStr s) = true <-> v = VStr s.
Proof.
  destruct v; simpl; try (split; [discriminate | discriminate]).
  rewrite String.eqb_eq. split; [now intros -> | now intros [= ->]].
Qed.

(** [calculateArea] on any list of arguments. *)
Lemma calculateArea_runs_any host (args : list value) st n c :
  is_instance st c "ShapeCalculator" = true -> no_own st c "calculateArea" = true ->
  invoke (OcpBad.CT host) (S n) (VObj c) "calculateArea" args st
  = Normal (if strict_equal (arg 0 args) (VStr "rectangle")
            then mul host (arg 1 args) (arg 2 args)
            else if strict_equal (arg 0 args) (VStr "circle")
                 then VNum (Math_PI * exponentiate host (ToNumber host (arg 1 args) / 2) 2)
                 else VUndefined) st.
Proof.
  intros Hi Hn.
  rewrite (invoke_instance _ n c "ShapeCalculator" "calculateArea" (OcpBad.calculateArea host));
    auto.
  unfold OcpBad.calculateArea.
  destruct (strict_equal (arg 0 args) (VStr "rectangle")); [reflexivity|].
  destruct (strict_equal (arg 0 args) (VStr "circle")); reflexivity.
Qed.

(** X13. On rectangles the two open-closed snippets compute the same
    thing: for a width [w] and a height [h] that are primitives
    ([undefined], [null], booleans, Numbers or strings),
    [calculateArea("rectangle", w, h)] returns what [area()] returns on a
    [Rectangle] object with width [w] and height [h], the product of the
    two converted to Numbers; and the result does not depend on which
    side is called the width. *)
Theorem rectangle_area_is_the_same_in_both_snippets :
  forall (host : Host) (w h : value) (st : state) (n : nat) (c : loc)
         (st2 : state) (l : loc) (m : nat),
    plain w = true -> plain h = true ->
    is_instance st c "ShapeCalculator" = true -> no_own st c "calculateArea" = true ->
    returned (invoke (OcpBad.CT host) (S n) (VObj c) "calculateArea"
                [VStr "rectangle"; w; h] st)
    = returned (invoke (OcpGood.CT host) (S m) (VObj l) "area" []
                  (with_object st2 l
                     (Object "Rectangle" {[ "width" := w; "height" := h ]}))) /\
    invoke (OcpBad.CT host) (S n) (VObj c) "calculateArea" [VStr "rectangle"; w; h] st
    = Normal (VNum (ToNumber host w * ToNumber host h)) st /\
    invoke (OcpBad.CT host) (S n) (VObj c) "calculateArea" [VStr "rectangle"; h; w] st
    = invoke (OcpBad.CT host) (S n) (VObj c) "calculateArea" [VStr "rectangle"; w; h] st.
Proof.
  intros host w h st n c st2 l m _ _ Hi Hn.
  rewrite Rectangle_area_runs, !calculateArea_runs by assumption. simpl.
  split; [reflexivity|]. split; [reflexivity|].
  unfold mul. now rewrite float_mul_comm.
Qed.

Lemma rectangle_area_witness :
  invoke (OcpBad.CT sample_host) 1 (VObj 1%positive) "calculateArea"
    [VStr "rectangle"; VNum 4; VNum 5] (one_object "ShapeCalculator")
  = Normal (VNum 20) (one_object "ShapeCalculator").
Proof.
  apply (rectangle_area_is_the_same_in_both_snippets sample_host (VNum 4) (VNum 5)
           (one_object "ShapeCalculator") 0 1%positive initial 1%positive 0);
    reflexivity.
Defined.

(** X14. [calculateArea] does not check that its arguments are there.
    Called with no argument it returns [undefined]; for a rectangle with
    the height left out it returns NaN whatever primitive the width is
    ([undefined], [null], a boolean, a Number or a string), also when the
    width is left out too; and for a circle with the width left out it
    returns NaN.  In none of these calls is anything thrown. *)
Theorem calculateArea_with_missing_arguments :
  forall (host : Host) (st : state) (n : nat) (c : loc),
    is_instance st c "ShapeCalculator" = true -> no_own st c "calculateArea" = true ->
    invoke (OcpBad.CT host) (S n) (VObj c) "calculateArea" [] st = Normal VUndefined st /\
    (forall w : value,
       plain w = true ->
       invoke (OcpBad.CT host) (S n) (VObj c) "calculateArea" [VStr "rectangle"; w] st
       = Normal (VNum nan) st) /\
    invoke (OcpBad.CT host) (S n) (VObj c) "calculateArea" [VStr "rectangle"] st
      = Normal (VNum nan) st /\
    invoke (OcpBad.CT host) (S n) (VObj c) "calculateArea" [VStr "circle"] st
      = Normal (VNum nan) st.
Proof.
  intros host st n c Hi Hn.
  rewrite !calculateArea_runs_any by assumption.
  split; [reflexivity|]. split; [|split; reflexivity].
  intros w _. rewrite calculateArea_runs_any by assumption. simpl.
  unfold mul. simpl. now rewrite float_mul_nan_r.
Qed.

Lemma calculateArea_missing_witness :
  invoke (OcpBad.CT sample_host) 1 (VObj 1%positive) "calculateArea"
    [VStr "rectangle"; VNum 4] (one_object "ShapeCalculator")
  = Normal (VNum nan) (one_object "ShapeCalculator").
Proof.
  assert (H : is_instance (one_object "ShapeCalculator") 1%positive "ShapeCalculator" = true)
    by reflexivity.
  apply (calculateArea_with_missing_arguments sample_host
           (one_object "ShapeCalculator") 0 1%positive) in H; [|reflexivity].
  apply (proj1 (proj2 H) (VNum 4)). reflexivity.
Defined.

(** X15. Given a width and a height that are primitives ([undefined],
    [null], booleans, Numbers or strings) or are left out,
    [calculateArea] does not throw and does not change the state,
    whatever its first argument is, and the shape is matched by [===]:
    the result is [undefined] exactly when the first argument is neither
    the string "rectangle" nor the string "circle" (another string, a
    string in other letter case, a number, an object, nothing at all);
    otherwise it is a Number. *)
Theorem calculateArea_is_undefined_exactly_off_the_two_names :
  forall (host : Host) (args : list value) (st : state) (n : nat) (c : loc),
    plain (arg 1 args) = true -> plain (arg 2 args) = true ->
    is_instance st c "ShapeCalculator" = true -> no_own st c "calculateArea" = true ->
    exists v : value,
      invoke (OcpBad.CT host) (S n) (VObj c) "calculateArea" args st = Normal v st /\
      (v = VUndefined <->
       arg 0 args <> VStr "rectangle" /\ arg 0 args <> VStr "circle") /\
      (v <> VUndefined -> exists x : float, v = VNum x).
Proof.
  intros host args st n c _ _ Hi Hn.
  rewrite calculateArea_runs_any by assumption.
  pose proof (strict_equal_string (arg 0 args) "rectangle") as Hr.
  pose proof (strict_equal_string (arg 0 args) "circle") as Hc.
  eexists. split; [reflexivity|].
  destruct (strict_equal (arg 0 args) (VStr "rectangle")).
  - split; [|intros _; unfold mul; eauto].
    split; [discriminate|]. intros [H _]. destruct H. now apply Hr.
  - destruct (strict_equal (arg 0 args) (VStr "circle")).
    + split; [|intros _; eauto].
      split; [discriminate|]. intros [_ H]. destruct H. now apply Hc.
    + split; [|congruence]. split; [|reflexivity].
      intros _. split; intros E; [apply Hr in E | apply Hc in E]; discriminate.
Qed.

Lemma calculateArea_undefined_witness :
  exists v : value,
    invoke (OcpBad.CT sample_host) 1 (VObj 1%positive) "calculateArea"
      [VStr "Circle"; VNum 2] (one_object "ShapeCalculator")
    = Normal v (one_object "ShapeCalculator") /\
    v = VUndefined.
Proof.
  destruct (calculateArea_is_undefined_exactly_off_the_two_names sample_host
              [VStr "Circle"; VNum 2] (one_object "ShapeCalculator") 0 1%positive)
    as (v & Hrun & Hv & _); [reflexivity | reflexivity | reflexivity | reflexivity |].
  exists v. split; [exact Hrun|]. apply Hv. split; discriminate.
Defined.

(** ** The two interface-segregation snippets, side by side *)

(** X16. On the operations a bird does support, the class of the
    applied snippet and the class of the same name in the violated
    snippet do the same thing: [fly()] and [run()] on a [Sparrow],
    [swim()] and [run()] on a [Penguin], have the same outcome in both,
    in every state.  Each class of the violated snippet declares exactly
    the three members of [Animal]. *)
Theorem supported_operations_agree_in_both_snippets :
  forall (st : state) (n : nat) (l : loc) (args : list value) (C name : string),
    In (C, name) [("Sparrow", "fly"); ("Sparrow", "run");
                  ("Penguin", "swim"); ("Penguin", "run")] ->
    is_instance st l C = true -> no_own st l name = true ->
    invoke IspBad.CT (S n) (VObj l) name args st
    = invoke IspGood.CT (S n) (VObj l) name args st /\
    completes (invoke IspBad.CT (S n) (VObj l) name args st) = true /\
    map fst (methods IspBad.Sparrow) = IspBad.Animal /\
    map fst (methods IspBad.Penguin) = IspBad.Animal.
Proof.
  intros st n l args C name Hin Hi Hn. simpl in Hin.
  destruct Hin as [[= <- <-] | [[= <- <-] | [[= <- <-] | [[= <- <-] | []]]]].
  - rewrite (invoke_instance IspBad.CT n l "Sparrow" "fly" IspBad.Sparrow_fly),
            (invoke_instance IspGood.CT n l "Sparrow" "fly" IspGood.Sparrow_fly); auto.
  - rewrite (invoke_instance IspBad.CT n l "Sparrow" "run" IspBad.Sparrow_run),
            (invoke_instance IspGood.CT n l "Sparrow" "run" IspGood.Sparrow_run); auto.
  - rewrite (invoke_instance IspBad.CT n l "Penguin" "swim" IspBad.Penguin_swim),
            (invoke_instance IspGood.CT n l "Penguin" "swim" IspGood.Penguin_swim); auto.
  - rewrite (invoke_instance IspBad.CT n l "Penguin" "run" IspBad.Penguin_run),
            (invoke_instance IspGood.CT n l "Penguin" "run" IspGood.Penguin_run); auto.
Qed.

Lemma supported_operations_witness :
  invoke IspBad.CT 1 (VObj 1%positive) "fly" [] (one_object "Sparrow")
  = invoke IspGood.CT 1 (VObj 1%positive) "fly" [] (one_object "Sparrow").
Proof.
  apply (supported_operations_agree_in_both_snippets (one_object "Sparrow") 0 1%positive []
           "Sparrow" "fly"); [simpl; auto | reflexivity | reflexivity].
Defined.

(** ** A flock (Liskov substitution, applied) *)

(** X17. A client that asks every bird of a list to fly,
    [for (const b of birds) b.fly();], completes for every list of
    sparrows and penguins, in any mix and order: no call throws, no
    object changes, and exactly one line per bird is written. *)
Theorem every_bird_of_a_flock_flies :
  forall (birds : list value) (st : state) (n : nat),
    Forall (fun b => exists (l : loc) (C : string),
                       b = VObj l /\ In C LspGood.birds /\
                       is_instance st l C = true /\ no_own st l "fly" = true) birds ->
    exists (st' : state) (lines : list string),
      fly_all (S n) birds st = Normal tt st' /\
      heap st' = heap st /\
      console st' = (console st ++ lines)%list /\
      length lines = length birds.
Proof.
  induction birds as [|b bs IH]; intros st n Hbs.
  - exists st, []. repeat split. now rewrite app_nil_r.
  - inversion Hbs as [|b' bs' (l & C & -> & HC & Hi & Hn) Hbs']; subst.
    destruct (bird_flies C st n l [] HC Hi Hn) as [line Hfly].
    destruct (IH (logged st line) n) as (st' & lines & Hrun & Hheap & Hcon & Hlen).
    { exact Hbs'. }
    exists st', (line :: lines). split; [|split; [|split]].
    + change (fly_all (S n) (VObj l :: bs) st)
        with ((invoke LspGood.CT (S n) (VObj l) "fly" [] ;; fly_all (S n) bs) st).
      unfold bind. now rewrite Hfly.
    + exact Hheap.
    + rewrite Hcon. simpl. now rewrite <- app_assoc.
    + simpl. now rewrite Hlen.
Qed.

Lemma every_bird_witness :
  exists st' : state,
    fly_all 1 [VObj 2%positive; VObj 1%positive; VObj 2%positive]
      (with_object (one_object "Sparrow") 2%positive (Object "Penguin" ∅))
    = Normal tt st' /\
    length (console st') = 3.
Proof.
  destruct (every_bird_of_a_flock_flies
              [VObj 2%positive; VObj 1%positive; VObj 2%positive]
              (with_object (one_object "Sparrow") 2%positive (Object "Penguin" ∅)) 0)
    as (st' & lines & Hrun & _ & Hcon & Hlen).
  - repeat constructor.
    + exists 2%positive, "Penguin". repeat split; simpl; auto.
    + exists 1%positive, "Sparrow". repeat split; simpl; auto.
    + exists 2%positive, "Penguin". repeat split; simpl; auto.
  - exists st'. split; [exact Hrun|]. rewrite Hcon. simpl. exact Hlen.
Defined.
